(** * Page objects, authentication state and session orchestration

    A shallow embedding of the Playwright boilerplate: the page objects
    ([BasePage], [LoginPage], [ProductsPage], [InternetPage]), the global
    authentication set-up and the authentication tests, over a model of the
    slice of the automation driver, of node's [fs] and of the JavaScript
    built-ins that the sources call.

    Asynchronous functions are sequential inside one call chain: an [await]
    is a monadic bind in [M], a state monad whose state survives a thrown
    error (as the JavaScript heap and the file system do). *)

From Stdlib Require Import ZArith NArith List String Ascii Bool Lia.
From stdpp Require Import base option list gmap sets strings.
Import ListNotations.
Local Open Scope Z_scope.

(** ** JavaScript values, exceptions and the effect monad *)

Module Js.

(** Exceptions the sources can meet. *)
Inductive error : Type :=
| ENOENT (path : string)          (* fs.readFileSync on a missing file *)
| EISDIR (path : string)          (* fs.readFileSync on a directory *)
| SyntaxError                     (* JSON.parse on malformed text *)
| TypeError (msg : string)
| TimeoutError (what : string)    (* a driver wait ran out *)
| LaunchError                     (* the engine process did not start *)
| DriverError (what : string)     (* any other rejection of a driver call *)
| AssertionError (msg : string).  (* a failed expect(...) *)

Inductive result (A : Type) : Type :=
| Return (a : A)
| Throw (e : error).
Arguments Return {A} a.
Arguments Throw {A} e.

Definition is_return {A} (r : result A) : bool :=
  match r with Return _ => true | Throw _ => false end.

(** A computation over a state [S]; the state is kept when it throws. *)
Definition M (S A : Type) : Type := S -> result A * S.

Definition ret {S A} (a : A) : M S A := fun s => (Return a, s).
Definition throw {S A} (e : error) : M S A := fun s => (Throw e, s).
Definition bind {S A B} (c : M S A) (k : A -> M S B) : M S B :=
  fun s => match c s with
           | (Return a, s') => k a s'
           | (Throw e, s') => (Throw e, s')
           end.
Definition gets {S A} (f : S -> A) : M S A := fun s => (Return (f s), s).
Definition modify {S} (f : S -> S) : M S unit := fun s => (Return tt, f s).

(** [try { body } catch (e) { handler e }] *)
Definition try_catch {S A} (body : M S A) (handler : error -> M S A) : M S A :=
  fun s => match body s with
           | (Return a, s') => (Return a, s')
           | (Throw e, s') => handler e s'
           end.

(** [try { body } finally { cleanup }]: the cleanup always runs; when it
    throws, its error replaces the outcome of the body. *)
Definition try_finally {S A} (body : M S A) (cleanup : M S unit) : M S A :=
  fun s => match body s with
           | (r, s') =>
               match cleanup s' with
               | (Return _, s'') => (r, s'')
               | (Throw e, s'') => (Throw e, s'')
               end
           end.

(** [if (c) { body }] with no else branch. *)
Definition when {S} (c : bool) (body : M S unit) : M S unit :=
  if c then body else ret tt.

(** UTF-16 code units; a JavaScript string is a sequence of them. *)
Definition code_unit : Type := N.
Definition jsstring : Type := list code_unit.

Definition of_ascii (c : ascii) : code_unit := N_of_ascii c.
Fixpoint of_string (s : string) : jsstring :=
  match s with
  | EmptyString => []
  | String c s' => of_ascii c :: of_string s'
  end.

(** ToString on [string | null]. *)
Definition ToString (v : option jsstring) : jsstring :=
  match v with
  | Some s => s
  | None => of_string "null"
  end.

(** StrWhiteSpaceChar: WhiteSpace (TAB, VT, FF, ZWNBSP, the Zs category)
    and LineTerminator (LF, CR, LS, PS). *)
Definition StrWhiteSpaceChar (c : code_unit) : bool :=
  ((9 <=? c) && (c <=? 13) || (c =? 32) || (c =? 160) || (c =? 5760)
   || (8192 <=? c) && (c <=? 8202) || (c =? 8232) || (c =? 8233)
   || (c =? 8239) || (c =? 8287) || (c =? 12288) || (c =? 65279))%N.

Fixpoint trim_start (s : jsstring) : jsstring :=
  match s with
  | c :: s' => if StrWhiteSpaceChar c then trim_start s' else s
  | [] => []
  end.

Definition plus_sign : code_unit := 43%N.
Definition minus_sign : code_unit := 45%N.

(** The value of a code unit as a digit: 0-9, a-z and A-Z count 0..35. *)
Definition digit_value (c : code_unit) : option N :=
  (if (48 <=? c) && (c <=? 57) then Some (c - 48)
   else if (97 <=? c) && (c <=? 122) then Some (c - 97 + 10)
   else if (65 <=? c) && (c <=? 90) then Some (c - 65 + 10)
   else None)%N.

Definition radix_digit (R : N) (c : code_unit) : option N :=
  match digit_value c with
  | Some d => if (d <? R)%N then Some d else None
  | None => None
  end.

(** The longest prefix of radix-[R] digits, as digit values. *)
Fixpoint take_digits (R : N) (s : jsstring) : list N :=
  match s with
  | c :: s' =>
      match radix_digit R c with
      | Some d => d :: take_digits R s'
      | None => []
      end
  | [] => []
  end.

Definition digits_value (R : N) (ds : list N) : N :=
  fold_left (fun acc d => (acc * R + d)%N) ds 0%N.

(** A Number as [parseInt] can return it: NaN, or a signed integer
    ([Num true 0] is -0). The magnitude is the mathematical integer of the
    digits; the Number is the double nearest to it, which is that integer
    itself below 2^53. *)
Inductive number : Type :=
| NaN
| Num (negative : bool) (magnitude : N).

Definition isNaN (n : number) : bool :=
  match n with NaN => true | Num _ _ => false end.

Definition has_hex_prefix (s : jsstring) : bool :=
  match s with
  | c0 :: c1 :: _ => ((c0 =? 48) && ((c1 =? 120) || (c1 =? 88)))%N
  | _ => false
  end.

(** [parseInt(string, radix)], step by step as ECMA-262 gives it; [radix]
    is the already converted ToInt32 value. *)
Definition parseInt (inputString : jsstring) (radix : Z) : number :=
  let S0 := trim_start inputString in
  let negative := match S0 with c :: _ => (c =? minus_sign)%N | [] => false end in
  let S1 := match S0 with
            | c :: rest => if ((c =? plus_sign) || (c =? minus_sign))%N then rest else S0
            | [] => S0
            end in
  if (radix =? 0)%Z || ((2 <=? radix)%Z && (radix <=? 36)%Z) then
    let stripPrefix := (radix =? 0)%Z || (radix =? 16)%Z in
    let R0 := if (radix =? 0)%Z then 10%N else Z.to_N radix in
    let '(S2, R) := if stripPrefix && has_hex_prefix S1
                    then (skipn 2 S1, 16%N) else (S1, R0) in
    match take_digits R S2 with
    | [] => NaN
    | ds => Num negative (digits_value R ds)
    end
  else NaN.

End Js.

Export Js.

Declare Scope js_scope.
Delimit Scope js_scope with js.
Notation "x ← y ; z" := (bind y (fun x => z))
  (at level 20, y at level 100, z at level 200, only parsing) : js_scope.
Notation "x ;; z" := (bind x (fun _ => z))
  (at level 100, z at level 200, only parsing, right associativity) : js_scope.
Local Open Scope js_scope.

(** ** Session state, its text form and the file system *)

Module Session.

Record Cookie : Type := {
  name : string; value : string; domain : string; path : string;
  expires : Z; httpOnly : bool; secure : bool; sameSite : string
}.

Record Origin : Type := {
  origin : string;
  localStorage : list (string * string)
}.

(** What [context.storageState()] captures. *)
Record SessionState : Type := {
  cookies : list Cookie;
  origins : list Origin
}.

Definition empty : SessionState := {| cookies := []; origins := [] |}.

End Session.

Export Session.

(** [JSON.stringify] and [JSON.parse] on a session state, over the type
    [Text] of file contents. The built-ins are not code of the repository;
    they enter through their contract: parsing what was printed gives the
    value back. [None] stands for the SyntaxError of [JSON.parse]. *)
Class JSON (Text : Type) : Type := {
  stringify : SessionState -> Text;
  parse : Text -> option SessionState;
  parse_stringify : forall s, parse (stringify s) = Some s
}.

(** The slice of node's [fs] the sources call, over a storage [F]: any
    backend that gives back what was last written under a path. *)
Class FileSystem (Text F : Type) : Type := {
  readFile : string -> F -> option Text;
  writeFile : string -> Text -> Z -> F -> F;      (* path, content, time *)
  existsPath : string -> F -> bool;
  mkdir : string -> F -> F;
  mtimeMs : string -> F -> option Z;
  readFile_writeFile : forall p t now f, readFile p (writeFile p t now f) = Some t;
  existsPath_writeFile : forall p t now f, existsPath p (writeFile p t now f) = true;
  existsPath_readFile : forall p f, is_Some (readFile p f) -> existsPath p f = true;
  readFile_mkdir : forall p d f, readFile p (mkdir d f) = readFile p f;
  mtimeMs_mkdir : forall p d f, mtimeMs p (mkdir d f) = mtimeMs p f;
  existsPath_mkdir_ne : forall p d f, p <> d -> existsPath p (mkdir d f) = existsPath p f
}.

(** The reference backend: regular files with their modification time,
    and directories. *)
Module Disk.

Record t (Text : Type) : Type := mk {
  files : gmap string (Text * Z);
  dirs : gset string
}.
Arguments mk {Text} files dirs.
Arguments files {Text} _.
Arguments dirs {Text} _.

Section Ops.
Context {Text : Type}.

Definition empty : t Text := mk ∅ ∅.

Definition read (p : string) (d : t Text) : option Text :=
  fst <$> files d !! p.

Definition write (p : string) (txt : Text) (now : Z) (d : t Text) : t Text :=
  mk (<[p := (txt, now)]> (files d)) (dirs d).

Definition exist (p : string) (d : t Text) : bool :=
  bool_decide (is_Some (files d !! p)) || bool_decide (p ∈ dirs d).

Definition mkdirp (p : string) (d : t Text) : t Text :=
  mk (files d) ({[p]} ∪ dirs d).

Definition mtime (p : string) (d : t Text) : option Z :=
  snd <$> files d !! p.

Lemma read_write p txt now d : read p (write p txt now d) = Some txt.
Proof. unfold read, write; simpl. by rewrite lookup_insert_eq. Qed.

Lemma exist_write p txt now d : exist p (write p txt now d) = true.
Proof.
  unfold exist, write; simpl. rewrite lookup_insert_eq.
  rewrite bool_decide_eq_true_2; [done | by eexists].
Qed.

Lemma exist_read p d : is_Some (read p d) -> exist p d = true.
Proof.
  unfold read, exist. intros [txt Hp].
  destruct (files d !! p) as [[txt' tm]|] eqn:E; [| done].
  rewrite bool_decide_eq_true_2; [done | by eexists].
Qed.

Lemma read_mkdirp p dir d : read p (mkdirp dir d) = read p d.
Proof. reflexivity. Qed.

Lemma mtime_mkdirp p dir d : mtime p (mkdirp dir d) = mtime p d.
Proof. reflexivity. Qed.

Lemma exist_mkdirp_ne p dir d : p <> dir -> exist p (mkdirp dir d) = exist p d.
Proof.
  intros Hne. unfold exist, mkdirp; simpl. f_equal.
  apply bool_decide_ext. rewrite elem_of_union, elem_of_singleton.
  split; [intros [Heq | Hin]; [done | exact Hin] | by right].
Qed.
End Ops.

End Disk.

#[export] Instance disk_fs {Text : Type} : FileSystem Text (Disk.t Text) := {|
  readFile := Disk.read;
  writeFile := Disk.write;
  existsPath := Disk.exist;
  mkdir := Disk.mkdirp;
  mtimeMs := Disk.mtime;
  readFile_writeFile := Disk.read_write;
  existsPath_writeFile := Disk.exist_write;
  existsPath_readFile := Disk.exist_read;
  readFile_mkdir := Disk.read_mkdirp;
  mtimeMs_mkdir := Disk.mtime_mkdirp;
  existsPath_mkdir_ne := Disk.exist_mkdirp_ne
|}.

(** A second backend: a blob store keyed by identifier, the newest entry
    first; it has no directories. *)
Module BlobStore.

Definition t (Text : Type) : Type := list (string * (Text * Z)).

Section Ops.
Context {Text : Type}.

Fixpoint find (id : string) (b : t Text) : option (Text * Z) :=
  match b with
  | [] => None
  | (id', v) :: b' => if String.eqb id id' then Some v else find id b'
  end.

Definition get (id : string) (b : t Text) : option Text := fst <$> find id b.

Definition put (id : string) (txt : Text) (now : Z) (b : t Text) : t Text :=
  (id, (txt, now)) :: b.

Definition has (id : string) (b : t Text) : bool :=
  match find id b with Some _ => true | None => false end.

Definition stamp (id : string) (b : t Text) : option Z := snd <$> find id b.

Lemma get_put id txt now b : get id (put id txt now b) = Some txt.
Proof. unfold get, put. simpl. by rewrite String.eqb_refl. Qed.

Lemma has_put id txt now b : has id (put id txt now b) = true.
Proof. unfold has, put. simpl. by rewrite String.eqb_refl. Qed.

Lemma has_get id b : is_Some (get id b) -> has id b = true.
Proof. unfold get, has. intros [txt Hg]. by destruct (find id b). Qed.
End Ops.

End BlobStore.

#[export] Instance blob_fs {Text : Type} : FileSystem Text (BlobStore.t Text) := {|
  readFile := BlobStore.get;
  writeFile := BlobStore.put;
  existsPath := BlobStore.has;
  mkdir := fun _ b => b;
  mtimeMs := BlobStore.stamp;
  readFile_writeFile := BlobStore.get_put;
  existsPath_writeFile := BlobStore.has_put;
  existsPath_readFile := BlobStore.has_get;
  readFile_mkdir := fun _ _ _ => eq_refl;
  mtimeMs_mkdir := fun _ _ _ => eq_refl;
  existsPath_mkdir_ne := fun _ _ _ _ => eq_refl
|}.

(** ** The automation driver and the world it acts on *)

Module Driver.

(** The double quote of a selector such as [[data-test=...]]. *)
Definition dq : string := String (ascii_of_nat 34) EmptyString.

(** The attribute selector [[a="v"]]. *)
Definition attr (a v : string) : string :=
  ("[" ++ a ++ "=" ++ dq ++ v ++ dq ++ "]")%string.

(** Calls into the driver, as the sources issue them. *)
Inductive call : Type :=
| Launch                                        (* chromium.launch() *)
| CreateContext (b : nat)                       (* browser.createContext() *)
| NewPage                                       (* context.newPage() *)
| Goto (url : string)                           (* page.goto(url) *)
| Fill (sel text : string)                      (* page.fill(sel, text) *)
| Click (sel : string)                          (* page.click(sel), locator.click() *)
| WaitForSelector (sel : string) (timeout : Z)  (* page.waitForSelector *)
| TextContent (sel : string)                    (* page.textContent(sel) *)
| StorageState (path : string)                  (* context.storageState({path}) *)
| WaitForEvent (event : string)                 (* context.waitForEvent(event) *)
| ClosePage (p : nat)                           (* page.close() *)
| CloseBrowser (b : nat).                       (* browser.close() *)

#[export] Instance call_eq_dec : EqDecision call.
Proof. solve_decision. Defined.

(** What the browser, the site and the network do, which the code does not
    control: which calls reject, what a click makes the site store in the
    context, which pages a click opens and where a navigation lands. *)
Record Env : Type := {
  rejects : call -> option error;
  on_click : string -> SessionState -> SessionState;
  opens : string -> list nat;
  landing : string -> string      (* the URL a navigation ends on *)
}.

Record World (F : Type) : Type := mkWorld {
  fs : F;                               (* the file system *)
  clock : Z;                            (* Date.now(), in ms *)
  browsers : gset nat;                  (* engine processes running *)
  next_browser : nat;
  session : SessionState;               (* storage of the live context *)
  dom : gmap string (option jsstring);  (* selector to textContent *)
  open_pages : gset nat;                (* pages not closed *)
  next_page : nat;
  waiters : list (nat * string);        (* pending one-shot event waiters *)
  settled : gmap nat nat;               (* waiter to the page it resolved with *)
  next_waiter : nat;
  calls : list call;                    (* driver calls, in the order issued *)
  console : list string                 (* console.log and console.error *)
}.
Arguments mkWorld {F}.
Arguments fs {F} _.
Arguments clock {F} _.
Arguments browsers {F} _.
Arguments next_browser {F} _.
Arguments session {F} _.
Arguments dom {F} _.
Arguments open_pages {F} _.
Arguments next_page {F} _.
Arguments waiters {F} _.
Arguments settled {F} _.
Arguments next_waiter {F} _.
Arguments calls {F} _.
Arguments console {F} _.

Section Updates.
Context {F : Type}.
Implicit Type w : World F.

Definition with_fs (f : F) w : World F :=
  mkWorld f (clock w) (browsers w) (next_browser w) (session w) (dom w)
    (open_pages w) (next_page w) (waiters w) (settled w) (next_waiter w)
    (calls w) (console w).
Definition with_browsers (bs : gset nat) (n : nat) w : World F :=
  mkWorld (fs w) (clock w) bs n (session w) (dom w)
    (open_pages w) (next_page w) (waiters w) (settled w) (next_waiter w)
    (calls w) (console w).
Definition with_session (s : SessionState) w : World F :=
  mkWorld (fs w) (clock w) (browsers w) (next_browser w) s (dom w)
    (open_pages w) (next_page w) (waiters w) (settled w) (next_waiter w)
    (calls w) (console w).
Definition with_pages (ps : gset nat) (n : nat) w : World F :=
  mkWorld (fs w) (clock w) (browsers w) (next_browser w) (session w) (dom w)
    ps n (waiters w) (settled w) (next_waiter w) (calls w) (console w).
Definition with_waiters (ws : list (nat * string)) (st : gmap nat nat)
    (n : nat) w : World F :=
  mkWorld (fs w) (clock w) (browsers w) (next_browser w) (session w) (dom w)
    (open_pages w) (next_page w) ws st n (calls w) (console w).
Definition with_calls (cs : list call) w : World F :=
  mkWorld (fs w) (clock w) (browsers w) (next_browser w) (session w) (dom w)
    (open_pages w) (next_page w) (waiters w) (settled w) (next_waiter w)
    cs (console w).
Definition with_console (ls : list string) w : World F :=
  mkWorld (fs w) (clock w) (browsers w) (next_browser w) (session w) (dom w)
    (open_pages w) (next_page w) (waiters w) (settled w) (next_waiter w)
    (calls w) ls.
End Updates.

Section Calls.
Context {Text F : Type} `{!JSON Text} `{!FileSystem Text F}.
Variable env : Env.
Local Abbreviation W := (World F).

Definition record (c : call) : M W unit :=
  modify (fun w => with_calls (calls w ++ [c]) w).

(** A call is issued, then rejects when the environment says so, and
    has its effect otherwise. *)
Definition issue {A} (c : call) (effect : M W A) : M W A :=
  record c ;;
  match rejects env c with
  | Some e => throw e
  | None => effect
  end.

Definition chromium_launch : M W nat :=
  issue Launch
    (fun w => let b := next_browser w in
              (Return b, with_browsers ({[b]} ∪ browsers w) (S b) w)).

Definition browser_createContext (b : nat) : M W unit :=
  issue (CreateContext b) (modify (with_session Session.empty)).

Definition context_newPage : M W nat :=
  issue NewPage
    (fun w => let p := next_page w in
              (Return p, with_pages ({[p]} ∪ open_pages w) (S p) w)).

Definition browser_close (b : nat) : M W unit :=
  issue (CloseBrowser b)
    (modify (fun w => with_browsers (browsers w ∖ {[b]}) (next_browser w) w)).

Definition page_goto (url : string) : M W unit :=
  issue (Goto url) (ret tt).

Definition page_fill (sel text : string) : M W unit :=
  issue (Fill sel text) (ret tt).

(** A 'page' event of the context: the page exists from now on, and
    every waiter pending on the event resolves with it. A waiter that is
    registered later does not see it. *)
Definition emit_page (p : nat) (w : W) : W :=
  let hit := filter (fun kv => kv.2 = "page"%string) (waiters w) in
  let rest := filter (fun kv => kv.2 <> "page"%string) (waiters w) in
  with_pages ({[p]} ∪ open_pages w) (next_page w)
    (with_waiters rest
       (foldr (fun kv st => <[kv.1 := p]> st) (settled w) hit)
       (next_waiter w) w).

(** A click: the site answers (here with what it stores in the context)
    and the browser opens the pages the link leads to, in order. *)
Definition page_click (sel : string) : M W unit :=
  issue (Click sel)
    (modify (fun w => fold_left (fun w' p => emit_page p w') (opens env sel)
                        (with_session (on_click env sel (session w)) w))).

Definition page_waitForSelector (sel : string) (timeout : Z) : M W unit :=
  issue (WaitForSelector sel timeout) (ret tt).

(** [page.textContent(sel)] waits for an element; with none it times
    out. A node can have a null textContent. *)
Definition page_textContent (sel : string) : M W (option jsstring) :=
  issue (TextContent sel)
    (fun w => match dom w !! sel with
              | Some t => (Return t, w)
              | None => (Throw (TimeoutError sel), w)
              end).

(** [context.storageState({ path })]: the storage of the live context,
    printed by [JSON.stringify] and written to [path]. *)
Definition context_storageState (path : string) : M W SessionState :=
  issue (StorageState path)
    (fun w => (Return (session w),
               with_fs (writeFile path (stringify (session w)) (clock w) (fs w)) w)).

(** The synchronous part of [context.waitForEvent(event)]: a one-shot
    waiter is registered; the promise is the waiter's number. *)
Definition context_waitForEvent (event : string) : M W nat :=
  record (WaitForEvent event) ;;
  (fun w => let k := next_waiter w in
            (Return k,
             with_waiters (waiters w ++ [(k, event)]) (settled w) (S k) w)).

(** Awaiting that promise: the page of the first matching event, or the
    waiter's timeout when none came. *)
Definition await_event (k : nat) : M W nat :=
  fun w => match settled w !! k with
           | Some p => (Return p, w)
           | None => (Throw (TimeoutError "waitForEvent"), w)
           end.

Definition page_close (p : nat) : M W unit :=
  issue (ClosePage p)
    (modify (fun w => with_pages (open_pages w ∖ {[p]}) (next_page w) w)).

Definition page_isClosed (p : nat) : M W bool :=
  gets (fun w => bool_decide (p ∉ open_pages w)).

Definition console_log (msg : string) : M W unit :=
  modify (fun w => with_console (console w ++ [msg]) w).

Definition existsSync (path : string) : M W bool :=
  gets (fun w => existsPath path (fs w)).

Definition mkdirSync (path : string) : M W unit :=
  modify (fun w => with_fs (mkdir path (fs w)) w).

Definition readFileSync (path : string) : M W Text :=
  fun w => match readFile path (fs w) with
           | Some txt => (Return txt, w)
           | None => (Throw (if existsPath path (fs w)
                             then EISDIR path else ENOENT path), w)
           end.

Definition JSON_parse (txt : Text) : M W SessionState :=
  match parse txt with
  | Some s => ret s
  | None => throw SyntaxError
  end.

(** [expect(c).toBe(true)] and the like. *)
Definition expect (c : bool) (msg : string) : M W unit :=
  if c then ret tt else throw (AssertionError msg).
End Calls.

End Driver.

Export Driver.

(** ** pages/BasePage.js *)

Module BasePage.
Section Methods.
Context {Text F : Type} `{!JSON Text} `{!FileSystem Text F}.
Variable env : Env.
Local Abbreviation W := (World F).

Definition goto (url : string) : M W unit := page_goto env url.

Definition click (selector : string) : M W unit := page_click env selector.

Definition fillText (selector text : string) : M W unit :=
  page_fill env selector text.

Definition getText (selector : string) : M W (option jsstring) :=
  page_textContent env selector.

Definition waitForElement (selector : string) (timeout : Z) : M W unit :=
  page_waitForSelector env selector timeout.

Definition saveStorageState (filepath : string) : M W unit :=
  context_storageState env filepath ;; ret tt.
End Methods.
End BasePage.

(** ** pages/LoginPage.js *)

Module LoginPage.
Definition usernameInput : string := attr "data-test" "username".
Definition passwordInput : string := attr "data-test" "password".
Definition loginButton : string := attr "data-test" "login-button".
Definition errorMessage : string := attr "data-test" "error".
Definition productsTitle : string := ".title".

Section Methods.
Context {Text F : Type} `{!JSON Text} `{!FileSystem Text F}.
Variable env : Env.
Local Abbreviation W := (World F).

Definition login (username password : string) : M W unit :=
  BasePage.fillText env usernameInput username ;;
  BasePage.fillText env passwordInput password ;;
  BasePage.click env loginButton ;;
  BasePage.waitForElement env productsTitle 10000.

Definition loginAndSaveState (username password statePath : string) : M W unit :=
  login username password ;;
  BasePage.saveStorageState env statePath.

Definition getErrorMessage : M W (option jsstring) :=
  BasePage.getText env errorMessage.

Definition navigateToLogin : M W unit := BasePage.goto env "/".
End Methods.
End LoginPage.

(** ** pages/ProductsPage.js *)

Module ProductsPage.
Definition productsContainer : string := ".inventory_container".
Definition cartIcon : string := ".shopping_cart_link".
Definition cartBadge : string := ".shopping_cart_badge".

Section Methods.
Context {Text F : Type} `{!JSON Text} `{!FileSystem Text F}.
Variable env : Env.
Local Abbreviation W := (World F).

Definition waitForProductsToLoad : M W unit :=
  BasePage.waitForElement env productsContainer 10000.

Definition getCartItemCount : M W number :=
  badgeText ← BasePage.getText env cartBadge;
  ret (parseInt (ToString badgeText) 10).
End Methods.
End ProductsPage.

(** ** pages/InternetPage.js *)

Module InternetPage.
Definition newWindowLink : string := ("a" ++ attr "target" "_blank")%string.

Section Methods.
Context {Text F : Type} `{!JSON Text} `{!FileSystem Text F}.
Variable env : Env.
Local Abbreviation W := (World F).

(** [Promise.all([context.waitForEvent('page'), locator.click()])]: the
    array is built left to right, so the waiter is registered, then the
    click is issued; the await takes the click's rejection when it
    rejects, and the waiter's outcome otherwise. *)
Definition clickNewWindowLink : M W nat :=
  k ← context_waitForEvent (F := F) "page";
  page_click env newWindowLink ;;
  await_event k.

Definition closePage (page : nat) : M W unit := page_close env page.
End Methods.
End InternetPage.

(** ** global-setup.js *)

Module GlobalSetup.
(** [path.join(__dirname, 'auth', 'auth.json')] and its [path.dirname],
    relative to the root of the repository. *)
Definition authFile : string := "auth/auth.json".
Definition authDir : string := "auth".

Section Setup.
Context {Text F : Type} `{!JSON Text} `{!FileSystem Text F}.
Variable env : Env.
Local Abbreviation W := (World F).

(** The body of the [try] block. Console messages are kept without their
    pictographs. *)
Definition authenticate : M W unit :=
  page_goto env "https://www.saucedemo.com/" ;;
  page_fill env (attr "data-test" "username") "standard_user" ;;
  page_fill env (attr "data-test" "password") "secret_sauce" ;;
  page_click env (attr "data-test" "login-button") ;;
  page_waitForSelector env ".inventory_container" 10000 ;;
  context_storageState env authFile ;;
  console_log "Authentication setup completed" ;;
  console_log "   Auth state saved to: auth/auth.json".

(** From [chromium.launch()] to the end of the function. The three
    acquisitions stand before the [try], as in the source. *)
Definition launchAndAuthenticate : M W unit :=
  browser ← chromium_launch env;
  browser_createContext env browser ;;
  context_newPage env ;;
  try_finally
    (try_catch authenticate
       (fun error => console_log "Authentication setup failed" ;; throw error))
    (browser_close env browser).

Definition globalSetup : M W unit :=
  console_log "Starting global authentication setup..." ;;
  dirExists ← existsSync authDir;
  when (negb dirExists) (mkdirSync authDir) ;;
  fileExists ← existsSync authFile;
  if fileExists
  then console_log "Auth state already exists, skipping setup"
  else launchAndAuthenticate.
End Setup.
End GlobalSetup.

(** ** tests/03-auth-state.spec.js *)

Module AuthSpec.
Definition authFile : string := GlobalSetup.authFile.
Definition authDir : string := GlobalSetup.authDir.

Section Tests.
Context {Text F : Type} `{!JSON Text} `{!FileSystem Text F}.
Variable env : Env.
Local Abbreviation W := (World F).

(** [JSON.parse(fs.readFileSync(authFile, 'utf-8'))] *)
Definition readAuthData (file : string) : M W SessionState :=
  txt ← readFileSync file;
  JSON_parse txt.

(** '01 - SETUP: Login and save authentication state' *)
Definition test01 : M W unit :=
  dirExists ← existsSync authDir;
  when (negb dirExists) (mkdirSync authDir) ;;
  LoginPage.navigateToLogin env ;;
  LoginPage.login env "standard_user" "secret_sauce" ;;
  ProductsPage.waitForProductsToLoad env ;;
  context_storageState env authFile ;;
  saved ← existsSync authFile;
  expect saved "auth file exists" ;;
  authData ← readAuthData authFile;
  (* expect(authData.cookies).toBeDefined() holds of every parsed state *)
  expect (0 <? length (cookies authData))%nat "cookies.length > 0" ;;
  console_log "Authentication state saved to: auth/auth.json".

(** '02 - Reuse saved authentication state in new page' *)
Definition test02 : M W unit :=
  authData ← readAuthData authFile;
  expect (0 <? length (cookies authData))%nat "cookies.length > 0" ;;
  let cookieNames := map name (cookies authData) in
  console_log "Available cookies:" ;;
  expect (0 <? length cookieNames)%nat "cookieNames.length > 0".
End Tests.
End AuthSpec.

(** ** tests/01-multi-tab.spec.js *)

Module MultiTabSpec.
Section Tests.
Context {Text F : Type} `{!JSON Text} `{!FileSystem Text F}.
Variable env : Env.
Local Abbreviation W := (World F).

(** The [finally] block of 'should handle multiple pages in same
    context': the page is closed unless it is closed already. *)
Definition closeUnlessClosed (page2 : nat) : M W unit :=
  closed ← page_isClosed page2;
  when (negb closed) (page_close env page2).

(** 'should handle multiple pages in same context' *)
Definition testMultiplePages : M W unit :=
  page2 ← context_newPage env;
  try_finally
    (page_goto env "https://www.saucedemo.com/" ;;
     page_goto env "https://www.saucedemo.com/" ;;
     let url1 := landing env "https://www.saucedemo.com/" in
     let url2 := landing env "https://www.saucedemo.com/" in
     expect (String.eqb url1 url2) "url1 is url2" ;;
     page_close env page2)
    (closeUnlessClosed page2).
End Tests.
End MultiTabSpec.

(** ** The session orchestration layer of the specification

    The repository delegates context pooling, fan-out over browser engines
    and run scheduling to the automation library's own runner; none of it is
    in the sources. The definitions of this module follow sections 3, 4 and
    7 of the specification. *)

Module Orchestration.

Inductive EngineKind : Type := chromium_like | gecko_like | webkit_like.

#[export] Instance EngineKind_eq_dec : EqDecision EngineKind.
Proof. solve_decision. Defined.

Record EngineTarget : Type := {
  target_name : string;
  engineKind : EngineKind;
  viewport : nat * nat;
  userAgentOverride : option string
}.

#[export] Instance EngineTarget_eq_dec : EqDecision EngineTarget.
Proof. solve_decision. Defined.

Definition TestId : Type := string.

(** Modelled from the spec: the error taxonomy of section 7, as far as a
    run can meet it. *)
Inductive Failure : Type :=
| LaunchFailure          (* LaunchError *)
| SeedFailure            (* SeedError *)
| RunTimeout
| RunFailure (msg : string)
| EngineCrash.

Inductive Outcome : Type := passed | failed | skipped | timedOut.

#[export] Instance Outcome_eq_dec : EqDecision Outcome.
Proof. solve_decision. Defined.

(** Modelled from the spec: RunResult of section 3, with the test it
    belongs to; a skipped test has no target. *)
Record RunResult : Type := {
  test : TestId;
  target : option EngineTarget;
  outcome : Outcome;
  durationMs : Z;
  failure : option Failure
}.

(** *** EngineMatrix *)

(** Modelled from the spec: EngineMatrix.expand of section 4.3, which is
    not in the sources. The set of targets is given in declaration order,
    as a list without duplicates; the result pairs the test with each
    target in that order. *)
Definition expand (targets : list EngineTarget) (testId : TestId)
    : list (TestId * EngineTarget) :=
  map (fun tg => (testId, tg)) targets.

(** *** BrowserContextPool *)

(** Modelled from the spec: the pool of section 4.2, which is not in the
    sources. It knows the engine processes that run and, for every open
    context, the engine that backs it. *)
Record Pool : Type := {
  engines : gset nat;               (* engine processes, by kind number *)
  contexts : gmap nat EngineKind;   (* open contexts *)
  next_context : nat
}.

Definition kind_number (k : EngineKind) : nat :=
  match k with chromium_like => 0 | gecko_like => 1 | webkit_like => 2 end.

Definition empty_pool : Pool :=
  {| engines := ∅; contexts := ∅; next_context := 0 |}.

(** What the engine and the seed do on an acquisition. *)
Inductive AcquireFate : Type := Acquires | LaunchFails | SeedFails.

(** Modelled from the spec: acquire launches or reuses the engine process
    of the target, and opens a fresh context. When it fails, what was
    started is torn down before the error is surfaced: the pool is as it
    was. *)
Definition acquire (fate : AcquireFate) (tg : EngineTarget) (p : Pool)
    : (Failure + nat) * Pool :=
  match fate with
  | LaunchFails => (inl LaunchFailure, p)
  | SeedFails => (inl SeedFailure, p)
  | Acquires =>
      let c := next_context p in
      (inr c,
       {| engines := {[kind_number (engineKind tg)]} ∪ engines p;
          contexts := <[c := engineKind tg]> (contexts p);
          next_context := S c |})
  end.

(** Does an open context other than [c] use engine [k]? *)
Definition engine_in_use (k : EngineKind) (cs : gmap nat EngineKind) : bool :=
  bool_decide (Exists (fun kv => kv.2 = k) (map_to_list cs)).

(** Modelled from the spec: release closes the context; an engine process
    without contexts is kept warm or shut down, by the idle policy. A
    context that is not open (released before) is left alone. *)
Definition release (keepWarm : bool) (c : nat) (p : Pool) : Pool :=
  match contexts p !! c with
  | None => p
  | Some k =>
      let cs := delete c (contexts p) in
      {| engines := if keepWarm || engine_in_use k cs
                    then engines p
                    else engines p ∖ {[kind_number k]};
         contexts := cs;
         next_context := next_context p |}
  end.

(** *** TestRunner *)

(** What the test body does on a context. *)
Inductive BodyFate : Type :=
| Completes (ms : Z)                 (* returns after [ms] *)
| Raises (msg : string) (ms : Z)     (* throws or fails an assertion *)
| Hangs                              (* never returns *)
| Crashes (ms : Z).                  (* the engine process dies *)

(** The environment of a suite: per run, the fate of its acquisition and
    of its body. *)
Record Fates : Type := {
  acquire_fate : TestId -> EngineTarget -> AcquireFate;
  body_fate : TestId -> EngineTarget -> BodyFate
}.

Inductive Work : Type :=
| RunItem (t : TestId) (tg : EngineTarget)
| SkipItem (t : TestId).

Definition work_test (wk : Work) : TestId :=
  match wk with RunItem t _ => t | SkipItem t => t end.

Definition work_target (wk : Work) : option EngineTarget :=
  match wk with RunItem _ tg => Some tg | SkipItem _ => None end.

Record Runner : Type := {
  pool : Pool;
  report : list RunResult      (* in completion order *)
}.

Section Run.
Variable timeoutMs : Z.       (* the bound of one run *)
Variable keepWarm : bool.     (* the idle policy of the pool *)
Variable fates : Fates.
Variable targetsOf : TestId -> list EngineTarget.

(** Modelled from the spec: the outcome of a body under the runner's
    timeout (section 4.4, step 3). *)
Definition judge (b : BodyFate) : Outcome * Z * option Failure :=
  match b with
  | Completes ms =>
      if (timeoutMs <? ms)%Z then (timedOut, timeoutMs, Some RunTimeout)
      else (passed, ms, None)
  | Raises msg ms =>
      if (timeoutMs <? ms)%Z then (timedOut, timeoutMs, Some RunTimeout)
      else (failed, ms, Some (RunFailure msg))
  | Hangs => (timedOut, timeoutMs, Some RunTimeout)
  | Crashes ms =>
      if (timeoutMs <? ms)%Z then (timedOut, timeoutMs, Some RunTimeout)
      else (failed, ms, Some EngineCrash)
  end.

(** Modelled from the spec: one run, pending - acquiring - running -
    terminal - released (section 4.4, step 2). Errors of the acquisition
    and of the body become the result; the release always happens. *)
Definition runOne (t : TestId) (tg : EngineTarget) (p : Pool) : RunResult * Pool :=
  match acquire (acquire_fate fates t tg) tg p with
  | (inl err, p') =>
      ({| test := t; target := Some tg; outcome := failed;
          durationMs := 0; failure := Some err |}, p')
  | (inr c, p') =>
      let '(o, ms, f) := judge (body_fate fates t tg) in
      ({| test := t; target := Some tg; outcome := o;
          durationMs := ms; failure := f |},
       release keepWarm c p')
  end.

Definition skippedResult (t : TestId) : RunResult :=
  {| test := t; target := None; outcome := skipped;
     durationMs := 0; failure := None |}.

Definition step (r : Runner) (wk : Work) : Runner :=
  match wk with
  | RunItem t tg =>
      let '(res, p') := runOne t tg (pool r) in
      {| pool := p'; report := report r ++ [res] |}
  | SkipItem t =>
      {| pool := pool r; report := report r ++ [skippedResult t] |}
  end.

(** Modelled from the spec: the runs of one test (section 4.4, step 1);
    a test without targets is scheduled as skipped. *)
Definition schedule1 (t : TestId) : list Work :=
  match expand (targetsOf t) t with
  | [] => [SkipItem t]
  | runs => map (fun r => RunItem r.1 r.2) runs
  end.

Definition schedule (tests : list TestId) : list Work :=
  concat (map schedule1 tests).

Definition runQueue (queue : list Work) (r : Runner) : Runner :=
  fold_left step queue r.

(** Modelled from the spec: the suite runs its queue to the end, or
    until it is cancelled; [cancelAfter = Some k] is a cancellation that
    arrives when [k] runs have completed. *)
Definition runSuite (cancelAfter : option nat) (tests : list TestId) : Runner :=
  let queue := schedule tests in
  runQueue (match cancelAfter with
            | Some k => take k queue
            | None => queue
            end)
           {| pool := empty_pool; report := [] |}.

(** The result that the fates of one work item alone determine. *)
Definition verdict (wk : Work) : RunResult :=
  match wk with
  | SkipItem t => skippedResult t
  | RunItem t tg =>
      match acquire_fate fates t tg with
      | LaunchFails =>
          {| test := t; target := Some tg; outcome := failed;
             durationMs := 0; failure := Some LaunchFailure |}
      | SeedFails =>
          {| test := t; target := Some tg; outcome := failed;
             durationMs := 0; failure := Some SeedFailure |}
      | Acquires =>
          let '(o, ms, f) := judge (body_fate fates t tg) in
          {| test := t; target := Some tg; outcome := o;
             durationMs := ms; failure := f |}
      end
  end.
End Run.

(** Modelled from the spec: SuiteReport of section 3, the results with
    their derived counts. *)
Record SuiteReport : Type := {
  results : list RunResult;
  passedCount : nat;
  failedCount : nat;
  skippedCount : nat;
  timedOutCount : nat
}.

Definition count_outcome (o : Outcome) (rs : list RunResult) : nat :=
  length (filter (fun r => outcome r = o) rs).

Definition finalize (r : Runner) : SuiteReport :=
  {| results := report r;
     passedCount := count_outcome passed (report r);
     failedCount := count_outcome failed (report r);
     skippedCount := count_outcome skipped (report r);
     timedOutCount := count_outcome timedOut (report r) |}.

(** The (test, target) key of a result. *)
Definition result_key (r : RunResult) : TestId * option EngineTarget :=
  (test r, target r).

Definition work_key (wk : Work) : TestId * option EngineTarget :=
  (work_test wk, work_target wk).

End Orchestration.

(** Modelled from the spec: SessionStateStore.isStale of section 4.1, which
    is not in the sources: a state captured at [capturedAt] is stale at
    [now] when it is older than [maxAgeMs]. *)
Definition isStale (capturedAt maxAgeMs now : Z) : bool :=
  (maxAgeMs <? now - capturedAt)%Z.

(** ** Reference instances and the predicates of the statements *)

(** A codec that keeps the state object as the file content. *)
#[export] Instance json_object : JSON SessionState := {|
  stringify := fun s => s;
  parse := fun s => Some s;
  parse_stringify := fun s => eq_refl
|}.

Definition is_decimal_digit (c : code_unit) : bool :=
  ((48 <=? c) && (c <=? 57))%N.

(** The text begins with a decimal digit. *)
Definition begins_with_digit (s : jsstring) : bool :=
  match s with
  | c :: _ => is_decimal_digit c
  | [] => false
  end.

(** The text is white space, then an optional sign, then a decimal digit,
    then anything. *)
Definition numeral_start (s : jsstring) : Prop :=
  exists ws sgn d rest,
    s = ws ++ sgn ++ d :: rest
    /\ forallb StrWhiteSpaceChar ws = true
    /\ (sgn = [] \/ sgn = [plus_sign] \/ sgn = [minus_sign])
    /\ is_decimal_digit d = true.

(** The sign and the rest of a trimmed text, as [parseInt] takes them. *)
Definition is_negative (s : jsstring) : bool :=
  match s with c :: _ => (c =? minus_sign)%N | [] => false end.

Definition strip_sign (s : jsstring) : jsstring :=
  match s with
  | c :: rest => if ((c =? plus_sign) || (c =? minus_sign))%N then rest else s
  | [] => s
  end.

(** An environment in which no call rejects, a click changes no storage
    and opens no page. *)
Definition quiet : Env := {|
  rejects := fun _ => None;
  on_click := fun _ s => s;
  opens := fun _ => [];
  landing := fun url => url
|}.

(** A world before anything happened, at time [now], over a storage. *)
Definition initial {F : Type} (f : F) (now : Z) : World F :=
  mkWorld f now ∅ 0 Session.empty ∅ ∅ 0 [] ∅ 0 [] [].

(** A storage state with one cookie, as a login on the demo shop leaves it. *)
Definition sample_cookie : Cookie := {|
  name := "session-username"; value := "standard_user";
  domain := "www.saucedemo.com"; path := "/";
  expires := 1700000600; httpOnly := false; secure := false; sameSite := "Lax"
|}.

Definition sample_state : SessionState :=
  {| cookies := [sample_cookie]; origins := [] |}.

(** The world in which global set-up prepares its check of the auth file:
    the first line is logged and the auth directory exists. *)
Definition prepared {Text F : Type} `{!FileSystem Text F} (w : World F) : World F :=
  let w1 := with_console (console w ++ ["Starting global authentication setup..."]) w in
  if existsPath GlobalSetup.authDir (fs w1) then w1
  else with_fs (mkdir GlobalSetup.authDir (fs w1)) w1.

(** An environment in which [browser.createContext()] rejects: the driver's
    browser object has no method of that name (its method is [newContext]),
    so the call is a TypeError. Everything else goes well, and the click on
    the login button stores the session. *)
Definition no_createContext : Env := {|
  rejects := fun c =>
    match c with
    | CreateContext _ => Some (TypeError "browser.createContext is not a function")
    | _ => None
    end;
  on_click := fun _ _ => sample_state;
  opens := fun _ => [];
  landing := fun url => url
|}.

(** An environment in which the driver starts a context, and the login
    page does not load. *)
Definition no_network : Env := {|
  rejects := fun c =>
    match c with
    | Goto _ => Some (TimeoutError "page.goto")
    | _ => None
    end;
  on_click := fun _ s => s;
  opens := fun _ => [];
  landing := fun url => url
|}.

(** An environment in which every call resolves and the click on the login
    button stores the session. *)
Definition logs_in : Env := {|
  rejects := fun _ => None;
  on_click := fun _ _ => sample_state;
  opens := fun _ => [];
  landing := fun url => url
|}.

(** A machine on which the auth file was written at time 0 and global
    set-up runs thirty days later. *)
Definition stale_world : World (Disk.t SessionState) :=
  initial (Disk.write GlobalSetup.authFile sample_state 0 Disk.empty) 2592000000.

(** A machine without an auth file. *)
Definition fresh_world : World (Disk.t SessionState) :=
  initial Disk.empty 1000.

(** The order the comment of test 01 warns against: the click is issued
    first and the waiter is registered afterwards. *)
Definition clickThenWait {F : Type} (env : Env) : M (World F) nat :=
  page_click env InternetPage.newWindowLink ;;
  k ← context_waitForEvent (F := F) "page";
  await_event k.

(** An environment in which the link opens page 7 in a new tab. *)
Definition opens_tab : Env := {|
  rejects := fun _ => None;
  on_click := fun _ s => s;
  opens := fun sel => if String.eqb sel InternetPage.newWindowLink then [7%nat] else [];
  landing := fun url => url
|}.

(** The projects of playwright.config.js, as the guides of the repository
    list them, in their declaration order. *)
Definition project (n : string) (k : Orchestration.EngineKind) (v : nat * nat)
    : Orchestration.EngineTarget :=
  {| Orchestration.target_name := n;
     Orchestration.engineKind := k;
     Orchestration.viewport := v;
     Orchestration.userAgentOverride := None |}.

Definition chromium : Orchestration.EngineTarget :=
  project "chromium" Orchestration.chromium_like (1280, 720)%nat.
Definition firefox : Orchestration.EngineTarget :=
  project "firefox" Orchestration.gecko_like (1280, 720)%nat.
Definition webkit : Orchestration.EngineTarget :=
  project "webkit" Orchestration.webkit_like (1280, 720)%nat.
Definition mobile_chrome : Orchestration.EngineTarget :=
  project "Mobile Chrome" Orchestration.chromium_like (393, 727)%nat.
Definition mobile_safari : Orchestration.EngineTarget :=
  project "Mobile Safari" Orchestration.webkit_like (390, 664)%nat.

Definition projects : list Orchestration.EngineTarget :=
  [chromium; firefox; webkit; mobile_chrome; mobile_safari].

(** A run is in error when its acquisition fails or its body does not
    complete within the timeout. *)
Definition in_error (timeoutMs : Z) (fates : Orchestration.Fates)
    (t : Orchestration.TestId) (tg : Orchestration.EngineTarget) : Prop :=
  Orchestration.acquire_fate fates t tg <> Orchestration.Acquires
  \/ match Orchestration.body_fate fates t tg with
     | Orchestration.Completes ms => (timeoutMs < ms)%Z
     | _ => True
     end.

(** The (test, target) keys that the report of a test must have: one per
    expanded pair, or the test alone when the matrix gave none. *)
Definition expected_keys (targetsOf : Orchestration.TestId -> list Orchestration.EngineTarget)
    (t : Orchestration.TestId)
    : list (Orchestration.TestId * option Orchestration.EngineTarget) :=
  match Orchestration.expand (targetsOf t) t with
  | [] => [(t, None)]
  | runs => map (fun r => (r.1, Some r.2)) runs
  end.

(** Fates of the scenario of section 8: the launch of the webkit-like
    engine fails, every other run completes in 1200 ms. *)
Definition webkit_down : Orchestration.Fates := {|
  Orchestration.acquire_fate := fun _ tg =>
    match Orchestration.engineKind tg with
    | Orchestration.webkit_like => Orchestration.LaunchFails
    | _ => Orchestration.Acquires
    end;
  Orchestration.body_fate := fun _ _ => Orchestration.Completes 1200
|}.

(** The same world with the text content of [sel] set. *)
Definition with_dom {F : Type} (sel : string) (t : option jsstring) (w : World F)
    : World F :=
  mkWorld (fs w) (clock w) (browsers w) (next_browser w) (session w)
    (<[sel := t]> (dom w)) (open_pages w) (next_page w) (waiters w)
    (settled w) (next_waiter w) (calls w) (console w).

(** A page whose cart badge has the text content [t]. *)
Definition badge_world (t : option jsstring) : World (Disk.t SessionState) :=
  with_dom ProductsPage.cartBadge t (initial Disk.empty 0).

(** [c] never changes the [proj] part of the world. *)
Definition leaves_alone {F X A : Type} (proj : World F -> X) (c : M (World F) A)
    : Prop :=
  forall w, proj (c w).2 = proj w.

(** ** Scripts, numerals and independent paths *)

(** The code unit of the decimal digit of value [d], and the numeral of a
    list of digit values. *)
Definition digit_unit (d : N) : code_unit := (48 + d)%N.

Definition numeral (ds : list N) : jsstring := map digit_unit ds.

(** The driver calls of [LoginPage.login], in the order of the source. *)
Definition login_script (username password : string) : list call :=
  [ Fill LoginPage.usernameInput username;
    Fill LoginPage.passwordInput password;
    Click LoginPage.loginButton;
    WaitForSelector LoginPage.productsTitle 10000 ].

(** The calls of a script that reach the driver: up to and including the
    first that rejects. *)
Fixpoint issued (env : Env) (script : list call) : list call :=
  match script with
  | [] => []
  | c :: script' =>
      c :: match rejects env c with
           | Some _ => []
           | None => issued env script'
           end
  end.

(** The error of the first call of a script that rejects. *)
Fixpoint first_rejection (env : Env) (script : list call) : option error :=
  match script with
  | [] => None
  | c :: script' =>
      match rejects env c with
      | Some e => Some e
      | None => first_rejection env script'
      end
  end.

(** A backend on which a write under one path leaves the other paths as
    they are. *)
Class IndependentPaths (Text F : Type) `{!FileSystem Text F} : Prop :=
  readFile_writeFile_ne :
    forall (p q : string) (t : Text) (now : Z) (f : F),
      p <> q -> readFile q (writeFile p t now f) = readFile q f.

#[export] Instance disk_independent {Text : Type}
  : IndependentPaths Text (Disk.t Text).
Proof.
  intros p q t now f Hne. unfold readFile, writeFile; simpl.
  unfold Disk.read, Disk.write; simpl. by rewrite lookup_insert_ne.
Qed.

#[export] Instance blob_independent {Text : Type}
  : IndependentPaths Text (BlobStore.t Text).
Proof.
  intros p q t now f Hne. unfold readFile, writeFile; simpl.
  unfold BlobStore.get, BlobStore.put; simpl.
  destruct (String.eqb_spec q p) as [-> | _]; [done | reflexivity].
Qed.

(** A site on which the login does not go through: the title of the
    products page never shows. *)
Definition wrong_password : Env := {|
  rejects := fun c =>
    match c with
    | WaitForSelector _ _ => Some (TimeoutError "page.waitForSelector")
    | _ => None
    end;
  on_click := fun _ s => s;
  opens := fun _ => [];
  landing := fun url => url
|}.

(** A second stored session, of another user. *)
Definition admin_state : SessionState :=
  {| cookies := [ {| name := "session-username"; value := "admin_user";
                     domain := "www.saucedemo.com"; path := "/";
                     expires := 1700000600; httpOnly := false;
                     secure := false; sameSite := "Lax" |} ];
     origins := [] |}.

(** The world in which the [try] block of global set-up starts: the browser
    is launched, a fresh context and a page are open. *)
Definition acquired {F : Type} (w : World F) : World F :=
  let b := next_browser w in
  let w1 := with_browsers ({[b]} ∪ browsers w) (S b)
              (with_calls (calls w ++ [Launch]) w) in
  let w2 := with_session Session.empty
              (with_calls (calls w1 ++ [CreateContext b]) w1) in
  let w3 := with_calls (calls w2 ++ [NewPage]) w2 in
  with_pages ({[next_page w3]} ∪ open_pages w3) (S (next_page w3)) w3.

(** The driver calls of the [try] block of global set-up, in the order of
    the source. *)
Definition setup_script : list call :=
  [ Goto "https://www.saucedemo.com/";
    Fill (attr "data-test" "username") "standard_user";
    Fill (attr "data-test" "password") "secret_sauce";
    Click (attr "data-test" "login-button");
    WaitForSelector ".inventory_container" 10000;
    StorageState GlobalSetup.authFile ].

(** The three acquisitions of global set-up, which stand before its [try]
    block, for the browser numbered [b]. *)
Definition acquisition_script (b : nat) : list call :=
  [Launch; CreateContext b; NewPage].

(** The driver calls of a global set-up that finds no auth file: the
    acquisitions up to the first that rejects and, when all three resolve,
    the calls of the [try] block up to the first that rejects, followed by
    the [browser.close()] of the [finally] block. *)
Definition setup_trace (env : Env) (b : nat) : list call :=
  issued env (acquisition_script b)
  ++ match first_rejection env (acquisition_script b) with
     | Some _ => []
     | None => issued env setup_script ++ [CloseBrowser b]
     end.

(** The result of such a set-up: the first rejection among the
    acquisitions; else the rejection of [browser.close()], which replaces
    whatever the [try] block did; else the first rejection of the [try]
    block; else a return. *)
Definition setup_outcome (env : Env) (b : nat) : result unit :=
  match first_rejection env (acquisition_script b) with
  | Some e => Throw e
  | None =>
      match rejects env (CloseBrowser b) with
      | Some e => Throw e
      | None =>
          match first_rejection env setup_script with
          | Some e => Throw e
          | None => Return tt
          end
      end
  end.

(** * Properties *)

(** ** [parseInt] and the cart badge *)

Section ParseInt.

Lemma digit_not_space c : is_decimal_digit c = true -> StrWhiteSpaceChar c = false.
Proof.
  unfold is_decimal_digit, StrWhiteSpaceChar. intros H.
  apply andb_true_iff in H as [H1 H2].
  apply N.leb_le in H1. apply N.leb_le in H2.
  repeat match goal with
         | |- context [(?a <=? ?b)%N] => destruct (N.leb_spec a b); try lia
         | |- context [(?a =? ?b)%N] => destruct (N.eqb_spec a b); try lia
         end; reflexivity.
Qed.

Lemma digit_not_sign c :
  is_decimal_digit c = true -> ((c =? plus_sign) || (c =? minus_sign))%N = false.
Proof.
  unfold is_decimal_digit, plus_sign, minus_sign. intros H.
  apply andb_true_iff in H as [H1 H2].
  apply N.leb_le in H1. apply N.leb_le in H2.
  destruct (N.eqb_spec c 43); destruct (N.eqb_spec c 45); try lia; reflexivity.
Qed.

Lemma radix10_digit c :
  is_Some (radix_digit 10 c) <-> is_decimal_digit c = true.
Proof.
  unfold radix_digit, digit_value, is_decimal_digit.
  destruct ((48 <=? c)%N && (c <=? 57)%N) eqn:E.
  - apply andb_true_iff in E as [H1 H2].
    apply N.leb_le in H1. apply N.leb_le in H2.
    destruct (N.ltb_spec (c - 48) 10); [| lia].
    split; [done | by eexists].
  - split; [| done]. intros [d Hd].
    destruct ((97 <=? c)%N && (c <=? 122)%N) eqn:E1.
    + destruct (N.ltb_spec (c - 97 + 10) 10); [lia | done].
    + destruct ((65 <=? c)%N && (c <=? 90)%N) eqn:E2; [| done].
      destruct (N.ltb_spec (c - 65 + 10) 10); [lia | done].
Qed.

Lemma take_digits10_nonempty s :
  take_digits 10 s <> [] <-> begins_with_digit s = true.
Proof.
  destruct s as [| c s]; simpl; [split; [done | discriminate] |].
  rewrite <- radix10_digit.
  destruct (radix_digit 10 c); split; done.
Qed.

(** What [trim_start] removes is white space, and what it leaves does not
    begin with white space. *)
Lemma trim_start_split s :
  exists ws, s = ws ++ trim_start s /\ forallb StrWhiteSpaceChar ws = true.
Proof.
  induction s as [| c s IH]; simpl.
  - by exists [].
  - destruct (StrWhiteSpaceChar c) eqn:E.
    + destruct IH as (ws & Hs & Hws). exists (c :: ws). simpl.
      rewrite E, Hws. split; [by f_equal | done].
    + by exists [].
Qed.

Lemma trim_start_app ws s :
  forallb StrWhiteSpaceChar ws = true ->
  match s with c :: _ => StrWhiteSpaceChar c = false | [] => True end ->
  trim_start (ws ++ s) = s.
Proof.
  intros Hws Hs. induction ws as [| c ws IH]; simpl in *.
  - destruct s as [| c s]; [done |]. simpl. by rewrite Hs.
  - apply andb_true_iff in Hws as [Hc Hws]. rewrite Hc. by apply IH.
Qed.

Lemma parseInt10_unfold s :
  parseInt s 10 =
  match take_digits 10 (strip_sign (trim_start s)) with
  | [] => NaN
  | ds => Num (is_negative (trim_start s)) (digits_value 10 ds)
  end.
Proof. reflexivity. Qed.

Lemma strip_sign_digit d rest :
  is_decimal_digit d = true -> strip_sign (d :: rest) = d :: rest.
Proof. intros Hd. unfold strip_sign. by rewrite (digit_not_sign d Hd). Qed.

(** With radix 10, [parseInt] is a number exactly on the texts with a
    numeral start. *)
Lemma parseInt10_number s :
  isNaN (parseInt s 10) = false <-> numeral_start s.
Proof.
  rewrite parseInt10_unfold.
  split.
  - intros H.
    assert (Hd : take_digits 10 (strip_sign (trim_start s)) <> []).
    { intros E. rewrite E in H. discriminate. }
    apply take_digits10_nonempty in Hd.
    destruct (trim_start_split s) as (ws & Hs & Hws).
    destruct (trim_start s) as [| c rest] eqn:Et; [discriminate |].
    unfold strip_sign in Hd.
    destruct ((c =? plus_sign)%N || (c =? minus_sign)%N) eqn:Esign.
    + destruct rest as [| d rest']; [discriminate |]. simpl in Hd.
      exists ws, [c], d, rest'. repeat split; try done.
      apply orb_true_iff in Esign as [E | E]; apply N.eqb_eq in E; subst; auto.
    + exists ws, [], c, rest. repeat split; auto.
  - intros (ws & sgn & d & rest & -> & Hws & Hsgn & Hd).
    assert (Hnd : take_digits 10 (d :: rest) <> [])
      by (apply take_digits10_nonempty; exact Hd).
    assert (E : strip_sign (trim_start (ws ++ sgn ++ d :: rest)) = d :: rest).
    { destruct Hsgn as [-> | [-> | ->]].
      - rewrite trim_start_app; [| done | by apply digit_not_space].
        by apply strip_sign_digit.
      - rewrite trim_start_app; [| done | reflexivity]. reflexivity.
      - rewrite trim_start_app; [| done | reflexivity]. reflexivity. }
    rewrite E.
    destruct (take_digits 10 (d :: rest)); [done | reflexivity].
Qed.

End ParseInt.

(** ** The cart badge *)

Section CartBadge.
Context {F : Type}.
Variable env : Env.
Implicit Type w : World F.

Lemma getCartItemCount_run w t :
  rejects env (TextContent ProductsPage.cartBadge) = None ->
  dom w !! ProductsPage.cartBadge = Some t ->
  ProductsPage.getCartItemCount env w =
  (Return (parseInt (ToString t) 10),
   with_calls (calls w ++ [TextContent ProductsPage.cartBadge]) w).
Proof.
  intros Hrej Hdom.
  unfold ProductsPage.getCartItemCount, BasePage.getText, page_textContent,
    issue, record, bind, modify, ret.
  rewrite Hrej. simpl. by rewrite Hdom.
Qed.

(** C10 (amended). When the cart badge has a text content, be it null,
    [getCartItemCount] returns without raising; the result is NaN for the
    empty text and for a null text content, and it is a number exactly
    when the text, after leading white space and an optional sign, begins
    with a decimal digit. *)
Theorem getCartItemCount_badge_text w t :
  rejects env (TextContent ProductsPage.cartBadge) = None ->
  dom w !! ProductsPage.cartBadge = Some t ->
  exists n,
    (ProductsPage.getCartItemCount env w).1 = Return n
    /\ (t = None \/ t = Some [] -> n = NaN)
    /\ (forall s, t = Some s -> (isNaN n = false <-> numeral_start s)).
Proof.
  intros Hrej Hdom.
  rewrite (getCartItemCount_run w t Hrej Hdom). simpl.
  eexists. split; [reflexivity |]. split.
  - intros [-> | ->]; reflexivity.
  - intros s ->. apply parseInt10_number.
Qed.

End CartBadge.

Lemma badge_world_dom t :
  dom (badge_world t) !! ProductsPage.cartBadge = Some t.
Proof. unfold badge_world, with_dom. simpl. apply lookup_insert_eq. Qed.

Example getCartItemCount_one :
  (ProductsPage.getCartItemCount quiet (badge_world (Some (of_string "1")))).1
  = Return (Num false 1).
Proof. by rewrite (getCartItemCount_run quiet _ _ eq_refl (badge_world_dom _)). Qed.

Example getCartItemCount_empty :
  (ProductsPage.getCartItemCount quiet (badge_world (Some []))).1 = Return NaN.
Proof. by rewrite (getCartItemCount_run quiet _ _ eq_refl (badge_world_dom _)). Qed.

Example getCartItemCount_null :
  (ProductsPage.getCartItemCount quiet (badge_world None)).1 = Return NaN.
Proof. by rewrite (getCartItemCount_run quiet _ _ eq_refl (badge_world_dom _)). Qed.

(** Without a badge element the text content is not null: the driver's
    wait times out and the count raises. *)
Example getCartItemCount_no_badge :
  (ProductsPage.getCartItemCount quiet (initial (Disk.empty (Text := SessionState)) 0)).1
  = Throw (TimeoutError ProductsPage.cartBadge).
Proof. reflexivity. Qed.

Lemma getCartItemCount_badge_text_witness :
  exists n,
    (ProductsPage.getCartItemCount quiet (badge_world (Some (of_string "12 items")))).1
    = Return n
    /\ (Some (of_string "12 items") = None \/ Some (of_string "12 items") = Some []
        -> n = NaN)
    /\ (forall s, Some (of_string "12 items") = Some s ->
        (isNaN n = false <-> numeral_start s)).
Proof.
  apply (getCartItemCount_badge_text quiet (badge_world (Some (of_string "12 items")))).
  - reflexivity.
  - vm_compute. reflexivity.
Defined.

(** C10, as stated, fails: a badge text that begins with a sign or with
    white space, not with a digit, still gives a number. *)
Lemma getCartItemCount_signed_counterexample :
  ~ (forall (w : World (Disk.t SessionState)) s neg n,
        dom w !! ProductsPage.cartBadge = Some (Some s) ->
        (ProductsPage.getCartItemCount quiet w).1 = Return (Num neg n) ->
        begins_with_digit s = true).
Proof.
  intros H.
  specialize (H (badge_world (Some (of_string "+3"))) (of_string "+3") false 3%N
                (badge_world_dom _)).
  rewrite (getCartItemCount_run quiet _ _ eq_refl (badge_world_dom _)) in H.
  specialize (H eq_refl). discriminate H.
Qed.

(** ** Saving and loading the authentication state *)

Section AuthState.
Context {Text F : Type} `{!JSON Text} `{!FileSystem Text F}.
Variable env : Env.
Implicit Type w : World F.

Ltac run := unfold issue, record, bind, modify, gets, ret, throw, when; simpl.

Lemma saveStorageState_run w file :
  rejects env (StorageState file) = None ->
  BasePage.saveStorageState env file w =
  (Return tt,
   with_fs (writeFile file (stringify (session w)) (clock w) (fs w))
     (with_calls (calls w ++ [StorageState file]) w)).
Proof.
  intros Hrej. unfold BasePage.saveStorageState, context_storageState. run.
  by rewrite Hrej.
Qed.

Lemma saveStorageState_rejected w file e :
  rejects env (StorageState file) = Some e ->
  BasePage.saveStorageState env file w =
  (Throw e, with_calls (calls w ++ [StorageState file]) w).
Proof.
  intros Hrej. unfold BasePage.saveStorageState, context_storageState. run.
  by rewrite Hrej.
Qed.

Lemma readAuthData_written w file s now :
  AuthSpec.readAuthData file (with_fs (writeFile file (stringify s) now (fs w)) w)
  = (Return s, with_fs (writeFile file (stringify s) now (fs w)) w).
Proof.
  unfold AuthSpec.readAuthData, readFileSync, JSON_parse. run.
  rewrite readFile_writeFile. simpl. by rewrite parse_stringify.
Qed.

Lemma readAuthData_absent w file :
  readFile file (fs w) = None ->
  existsPath file (fs w) = false ->
  AuthSpec.readAuthData (Text := Text) file w = (Throw (ENOENT file), w).
Proof.
  intros Hread Hex. unfold AuthSpec.readAuthData, readFileSync. run.
  by rewrite Hread, Hex.
Qed.

(** C1. Saving the storage state of a live context under a path and then
    loading the path gives exactly that state: the save returns, and in
    every later world whose storage is the one the save left - whatever
    context, session or clock that world has - reading the path back
    returns the saved state and nothing else. This holds whatever state the
    context held, whatever the path and the earlier content of the storage,
    for every storage backend and every codec that obey their contracts. *)
Theorem saveStorageState_roundtrip (s : SessionState) (id : string) w :
  rejects env (StorageState id) = None ->
  let saved := BasePage.saveStorageState env id (with_session s w) in
  saved.1 = Return tt
  /\ ((BasePage.saveStorageState env id ;; AuthSpec.readAuthData id)
        (with_session s w)).1 = Return s
  /\ forall w' : World F,
       fs w' = fs saved.2 ->
       AuthSpec.readAuthData id w' = (Return s, w').
Proof.
  intros Hrej. cbv zeta.
  rewrite (saveStorageState_run _ _ Hrej).
  split; [reflexivity |]. split.
  - unfold bind at 1. rewrite (saveStorageState_run _ _ Hrej).
    match goal with
    | |- context [AuthSpec.readAuthData id (with_fs (writeFile id (stringify ?s0) ?t ?f) ?w0)] =>
        change f with (fs w0);
        rewrite (readAuthData_written w0 id s0 t)
    end.
    reflexivity.
  - intros w' Hfs. cbn [snd] in Hfs.
    unfold AuthSpec.readAuthData, readFileSync, JSON_parse, bind, ret.
    rewrite Hfs. cbn [fs with_fs].
    rewrite readFile_writeFile. cbn [session with_session with_calls].
    by rewrite parse_stringify.
Qed.

(** X6. A later save under the same path replaces the earlier one: after
    two saves, reading the path back gives the state of the second. *)
Lemma saveStorageState_overwrites (s1 s2 : SessionState) (id : string) w :
  rejects env (StorageState id) = None ->
  ((BasePage.saveStorageState env id ;;
    modify (with_session s2) ;;
    BasePage.saveStorageState env id ;;
    AuthSpec.readAuthData id) (with_session s1 w)).1 = Return s2.
Proof.
  intros Hrej. unfold bind at 1.
  rewrite (saveStorageState_run _ _ Hrej).
  unfold bind at 1. unfold modify at 1.
  unfold bind at 1.
  rewrite (saveStorageState_run _ _ Hrej).
  match goal with
  | |- context [AuthSpec.readAuthData id (with_fs (writeFile id (stringify ?s0) ?t ?f) ?w0)] =>
      change f with (fs w0);
      rewrite (readAuthData_written w0 id s0 t)
  end.
  reflexivity.
Qed.

(** Opening pages does not change the storage of the context. *)
Lemma emit_pages_session ps w :
  session (fold_left (fun w' p => emit_page p w') ps w) = session w.
Proof.
  revert w. induction ps as [| p ps IH]; intros w; simpl; [done |].
  by rewrite IH.
Qed.

(** X5. When no call rejects, [loginAndSaveState] saves what the click on
    the login button made the site store in the context, and reading the
    file back gives exactly that state. *)
Lemma loginAndSaveState_roundtrip w username password statePath :
  (forall c, rejects env c = None) ->
  ((LoginPage.loginAndSaveState env username password statePath ;;
    AuthSpec.readAuthData statePath) w).1
  = Return (on_click env LoginPage.loginButton (session w)).
Proof.
  intros Hrej.
  unfold LoginPage.loginAndSaveState, LoginPage.login, BasePage.fillText,
    BasePage.click, BasePage.waitForElement, page_fill, page_click,
    page_waitForSelector.
  unfold bind at 1. unfold bind at 1.
  match goal with
  | |- context [bind ?c ?k w] =>
      assert (Hlogin : exists w1, bind c k w = (Return tt, w1)
                /\ session w1 = on_click env LoginPage.loginButton (session w))
  end.
  { run. rewrite !Hrej. simpl. eexists. split; [reflexivity |]. simpl.
    by rewrite emit_pages_session. }
  destruct Hlogin as (w1 & -> & Hs).
  rewrite (saveStorageState_run _ _ (Hrej _)).
  match goal with
  | |- context [AuthSpec.readAuthData statePath (with_fs (writeFile statePath (stringify ?s0) ?t ?f) ?w0)] =>
      change f with (fs w0);
      rewrite (readAuthData_written w0 statePath s0 t)
  end.
  simpl. by rewrite Hs.
Qed.

End AuthState.

Lemma saveStorageState_roundtrip_witness :
  let saved := BasePage.saveStorageState quiet "auth/auth.json"
                 (with_session sample_state
                    (initial (Disk.empty (Text := SessionState)) 0)) in
  saved.1 = Return tt
  /\ ((BasePage.saveStorageState quiet "auth/auth.json" ;;
       AuthSpec.readAuthData "auth/auth.json")
        (with_session sample_state
           (initial (Disk.empty (Text := SessionState)) 0))).1
     = Return sample_state
  /\ AuthSpec.readAuthData "auth/auth.json" (initial (fs saved.2) 86400000)
     = (Return sample_state, initial (fs saved.2) 86400000).
Proof.
  destruct (saveStorageState_roundtrip quiet sample_state "auth/auth.json"
              (initial (Disk.empty (Text := SessionState)) 0) eq_refl)
    as (Hsaved & Hseq & Hlater).
  split; [exact Hsaved |]. split; [exact Hseq |].
  apply Hlater. reflexivity.
Defined.

(** ** Global set-up *)

Section GlobalSetupFacts.
Context {Text F : Type} `{!JSON Text} `{!FileSystem Text F}.
Variable env : Env.
Implicit Type w : World F.

Lemma authFile_not_authDir : GlobalSetup.authFile <> GlobalSetup.authDir.
Proof. discriminate. Qed.

Lemma prepared_exists w :
  existsPath GlobalSetup.authFile (fs (prepared w))
  = existsPath GlobalSetup.authFile (fs w).
Proof.
  unfold prepared. simpl.
  destruct (existsPath GlobalSetup.authDir (fs w)); simpl; [done |].
  apply existsPath_mkdir_ne, authFile_not_authDir.
Qed.

Lemma prepared_readFile w p : readFile p (fs (prepared w)) = readFile p (fs w).
Proof.
  unfold prepared. simpl.
  destruct (existsPath GlobalSetup.authDir (fs w)); simpl; [done |].
  apply readFile_mkdir.
Qed.

Lemma prepared_mtimeMs w p : mtimeMs p (fs (prepared w)) = mtimeMs p (fs w).
Proof.
  unfold prepared. simpl.
  destruct (existsPath GlobalSetup.authDir (fs w)); simpl; [done |].
  apply mtimeMs_mkdir.
Qed.

Lemma prepared_driver w :
  calls (prepared w) = calls w /\ browsers (prepared w) = browsers w
  /\ next_browser (prepared w) = next_browser w
  /\ clock (prepared w) = clock w /\ session (prepared w) = session w.
Proof.
  unfold prepared. simpl.
  by destruct (existsPath GlobalSetup.authDir (fs w)).
Qed.

(** The two branches of the existence check. *)
Lemma globalSetup_run w :
  GlobalSetup.globalSetup env w =
  if existsPath GlobalSetup.authFile (fs w)
  then (Return tt,
        with_console
          (console (prepared w) ++ ["Auth state already exists, skipping setup"])
          (prepared w))
  else GlobalSetup.launchAndAuthenticate env (prepared w).
Proof.
  unfold GlobalSetup.globalSetup, prepared, console_log, existsSync, mkdirSync,
    bind, gets, modify, when, ret. simpl.
  destruct (existsPath GlobalSetup.authDir (fs w)) eqn:Edir; simpl.
  - by destruct (existsPath GlobalSetup.authFile (fs w)).
  - rewrite (existsPath_mkdir_ne _ _ _ authFile_not_authDir).
    by destruct (existsPath GlobalSetup.authFile (fs w)).
Qed.

Lemma fold_emit_calls ps w :
  calls (fold_left (fun w' p => emit_page p w') ps w) = calls w.
Proof.
  revert w. induction ps as [| p ps IH]; intros w; simpl; [done |].
  by rewrite IH.
Qed.

(** The [try] block issues its calls in order, up to the first that
    rejects. *)
Lemma authenticate_calls w :
  calls (GlobalSetup.authenticate env w).2 = calls w ++ issued env setup_script.
Proof.
  unfold GlobalSetup.authenticate, page_goto, page_fill, page_click,
    page_waitForSelector, context_storageState, console_log, issue, record,
    bind, modify, ret, throw. simpl.
  destruct (rejects env (Goto "https://www.saucedemo.com/")); simpl; [done |].
  destruct (rejects env (Fill (attr "data-test" "username") "standard_user"));
    simpl; [by rewrite <- !app_assoc |].
  destruct (rejects env (Fill (attr "data-test" "password") "secret_sauce"));
    simpl; [by rewrite <- !app_assoc |].
  destruct (rejects env (Click (attr "data-test" "login-button"))); simpl;
    [by rewrite <- !app_assoc |].
  destruct (rejects env (WaitForSelector ".inventory_container" 10000)); simpl;
    [by rewrite fold_emit_calls; simpl; rewrite <- !app_assoc |].
  destruct (rejects env (StorageState GlobalSetup.authFile)); simpl;
    rewrite fold_emit_calls; simpl; by rewrite <- !app_assoc.
Qed.

Lemma try_finally_world {A} (body : M (World F) A) cleanup w :
  (try_finally body cleanup w).2 = (cleanup (body w).2).2.
Proof.
  unfold try_finally. destruct (body w) as [r w1]. simpl.
  by destruct (cleanup w1) as [[u | e] w2].
Qed.

Lemma try_finally_result {A} (body : M (World F) A) cleanup w :
  (try_finally body cleanup w).1
  = match (cleanup (body w).2).1 with
    | Return _ => (body w).1
    | Throw e => Throw e
    end.
Proof.
  unfold try_finally. destruct (body w) as [r w1]. simpl.
  by destruct (cleanup w1) as [[u | e] w2].
Qed.

Lemma browser_close_calls b w :
  calls (browser_close env b w).2 = calls w ++ [CloseBrowser b].
Proof.
  unfold browser_close, issue, record, bind, modify, throw. simpl.
  by destruct (rejects env (CloseBrowser b)).
Qed.

(** With the three acquisitions through, the rest of global set-up is its
    [try], [catch] and [finally] in the world [acquired w]. *)
Lemma launchAndAuthenticate_acquired w :
  first_rejection env (acquisition_script (next_browser w)) = None ->
  GlobalSetup.launchAndAuthenticate env w
  = try_finally
      (try_catch (GlobalSetup.authenticate env)
         (fun error => console_log "Authentication setup failed" ;; throw error))
      (browser_close env (next_browser w)) (acquired w).
Proof.
  unfold acquisition_script. simpl. intros Hacq.
  destruct (rejects env Launch) eqn:Hl; [discriminate |].
  destruct (rejects env (CreateContext (next_browser w))) eqn:Hc; [discriminate |].
  destruct (rejects env NewPage) eqn:Hp; [discriminate |].
  unfold GlobalSetup.launchAndAuthenticate, chromium_launch,
    browser_createContext, context_newPage, issue at 1 2 3, record, bind,
    modify, throw. simpl.
  rewrite Hl. simpl. rewrite Hc. simpl. by rewrite Hp.
Qed.

Lemma try_catch_authenticate w :
  let caught := try_catch (GlobalSetup.authenticate env)
                  (fun error => console_log "Authentication setup failed" ;;
                                throw error) w in
  caught.1 = (GlobalSetup.authenticate env w).1
  /\ calls caught.2 = calls (GlobalSetup.authenticate env w).2
  /\ fs caught.2 = fs (GlobalSetup.authenticate env w).2
  /\ browsers caught.2 = browsers (GlobalSetup.authenticate env w).2.
Proof.
  unfold try_catch, console_log, bind, modify, throw.
  by destruct (GlobalSetup.authenticate env w) as [[[] | e] w1].
Qed.

(** The driver calls of the part of global set-up that follows the check
    of the auth file, in every environment. *)
Lemma launchAndAuthenticate_calls w :
  calls (GlobalSetup.launchAndAuthenticate env w).2
  = calls w ++ setup_trace env (next_browser w).
Proof.
  destruct (first_rejection env (acquisition_script (next_browser w)))
    as [e |] eqn:Hacq.
  - unfold setup_trace. rewrite Hacq, app_nil_r. revert Hacq.
    unfold acquisition_script, GlobalSetup.launchAndAuthenticate,
      chromium_launch, browser_createContext, context_newPage, issue, record,
      bind, modify, throw. simpl.
    destruct (rejects env Launch); simpl; [done |].
    destruct (rejects env (CreateContext (next_browser w))); simpl;
      [by rewrite <- app_assoc |].
    destruct (rejects env NewPage); simpl;
      [by rewrite <- !app_assoc | discriminate].
  - rewrite (launchAndAuthenticate_acquired w Hacq).
    rewrite try_finally_world, browser_close_calls.
    destruct (try_catch_authenticate (acquired w)) as (_ & -> & _).
    rewrite authenticate_calls.
    unfold setup_trace. rewrite Hacq. revert Hacq.
    unfold acquisition_script. simpl.
    destruct (rejects env Launch); [discriminate |].
    destruct (rejects env (CreateContext (next_browser w))); [discriminate |].
    destruct (rejects env NewPage); [discriminate |].
    intros _. by rewrite <- !app_assoc.
Qed.

Lemma globalSetup_absent_calls w :
  existsPath GlobalSetup.authFile (fs w) = false ->
  calls (GlobalSetup.globalSetup env w).2
  = calls w ++ setup_trace env (next_browser w).
Proof.
  intros Hex. rewrite globalSetup_run, Hex, launchAndAuthenticate_calls.
  destruct (prepared_driver w) as (-> & _ & -> & _). reflexivity.
Qed.

(** C2 (amended). Global set-up decides between reuse and a fresh capture
    by the existence of the auth file alone. When the file exists, whatever
    its age, set-up returns without a driver call: no browser is launched,
    and the file keeps its content and its time stamp. When it does not
    exist, set-up does not return early: it goes on to launch a browser,
    [chromium.launch()] being its next driver call. *)
Theorem globalSetup_decides_by_existence w :
  (existsPath GlobalSetup.authFile (fs w) = true ->
   let w' := (GlobalSetup.globalSetup env w).2 in
   (GlobalSetup.globalSetup env w).1 = Return tt
   /\ calls w' = calls w
   /\ browsers w' = browsers w
   /\ readFile GlobalSetup.authFile (fs w') = readFile GlobalSetup.authFile (fs w)
   /\ mtimeMs GlobalSetup.authFile (fs w') = mtimeMs GlobalSetup.authFile (fs w))
  /\ (existsPath GlobalSetup.authFile (fs w) = false ->
      GlobalSetup.globalSetup env w
      = GlobalSetup.launchAndAuthenticate env (prepared w)
      /\ exists rest,
           calls (GlobalSetup.globalSetup env w).2 = calls w ++ Launch :: rest).
Proof.
  split; intros Hex.
  - rewrite globalSetup_run, Hex. simpl.
    destruct (prepared_driver w) as (Hc & Hb & _).
    rewrite prepared_readFile, prepared_mtimeMs. by rewrite Hc, Hb.
  - split; [by rewrite globalSetup_run, Hex |].
    rewrite (globalSetup_absent_calls w Hex).
    unfold setup_trace, acquisition_script. simpl. by eexists.
Qed.

End GlobalSetupFacts.

(** ** What a computation leaves alone *)

Section Preservation.
Context {Text F : Type} `{!JSON Text} `{!FileSystem Text F}.
Variable env : Env.
Context {X : Type}.
Variable proj : World F -> X.
Local Abbreviation preserves := (leaves_alone proj).

Lemma preserves_ret {A} (a : A) : preserves (ret a).
Proof. by intros w. Qed.

Lemma preserves_throw {A} e : preserves (throw (A := A) e).
Proof. by intros w. Qed.

Lemma preserves_bind {A B} (c : M (World F) A) (k : A -> M (World F) B) :
  preserves c -> (forall a, preserves (k a)) -> preserves (bind c k).
Proof.
  intros Hc Hk w. unfold bind. specialize (Hc w).
  destruct (c w) as [[a | e] w1]; simpl in *; [| done].
  by rewrite Hk.
Qed.

Lemma preserves_try_catch {A} (c : M (World F) A) h :
  preserves c -> (forall e, preserves (h e)) -> preserves (try_catch c h).
Proof.
  intros Hc Hh w. unfold try_catch. specialize (Hc w).
  destruct (c w) as [[a | e] w1]; simpl in *; [done |].
  by rewrite Hh.
Qed.

Lemma preserves_when b (c : M (World F) unit) :
  preserves c -> preserves (when b c).
Proof. intros Hc. destruct b; [done | apply preserves_ret]. Qed.

Hypothesis proj_calls : forall cs w, proj (with_calls cs w) = proj w.
Hypothesis proj_console : forall ls w, proj (with_console ls w) = proj w.

Lemma preserves_console_log msg : preserves (console_log msg).
Proof. intros w. apply proj_console. Qed.

Lemma preserves_issue {A} c (effect : M (World F) A) :
  preserves effect -> preserves (issue env c effect).
Proof.
  intros He w. unfold issue, record, bind, modify, throw. simpl.
  destruct (rejects env c); simpl; [apply proj_calls |].
  rewrite He. apply proj_calls.
Qed.

Lemma preserves_goto url : preserves (page_goto env url).
Proof. apply preserves_issue, preserves_ret. Qed.

Lemma preserves_fill sel text : preserves (page_fill env sel text).
Proof. apply preserves_issue, preserves_ret. Qed.

Lemma preserves_waitForSelector sel t : preserves (page_waitForSelector env sel t).
Proof. apply preserves_issue, preserves_ret. Qed.

Hypothesis proj_session : forall s w, proj (with_session s w) = proj w.
Hypothesis proj_pages : forall ps n w, proj (with_pages ps n w) = proj w.
Hypothesis proj_waiters : forall ws st n w, proj (with_waiters ws st n w) = proj w.

Lemma proj_emit_page p w : proj (emit_page p w) = proj w.
Proof. unfold emit_page. by rewrite proj_pages, proj_waiters. Qed.

Lemma proj_emit_pages ps w :
  proj (fold_left (fun w' p => emit_page p w') ps w) = proj w.
Proof.
  revert w. induction ps as [| p ps IH]; intros w; simpl; [done |].
  by rewrite IH, proj_emit_page.
Qed.

Lemma preserves_click sel : preserves (page_click env sel).
Proof.
  apply preserves_issue. intros w. unfold modify. simpl.
  by rewrite proj_emit_pages, proj_session.
Qed.

Hypothesis proj_fs : forall f w, proj (with_fs f w) = proj w.

Lemma preserves_storageState file : preserves (context_storageState env file).
Proof. apply preserves_issue. intros w. simpl. apply proj_fs. Qed.

Ltac prim :=
  first [ apply preserves_goto | apply preserves_fill | apply preserves_click
        | apply preserves_waitForSelector | apply preserves_storageState
        | apply preserves_console_log ].

Lemma preserves_authenticate : preserves (GlobalSetup.authenticate env).
Proof.
  unfold GlobalSetup.authenticate.
  repeat (apply preserves_bind; [prim | intros ?]); prim.
Qed.

End Preservation.

(** ** Launching, authenticating and closing the browser *)

Section Launch.
Context {Text F : Type} `{!JSON Text} `{!FileSystem Text F}.
Variable env : Env.
Implicit Type w : World F.

Ltac run :=
  unfold GlobalSetup.launchAndAuthenticate, chromium_launch,
    browser_createContext, context_newPage, issue, record, bind, modify,
    throw; simpl.

(** When the launch itself fails there is nothing to tear down. *)
Lemma launch_rejected w e :
  rejects env Launch = Some e ->
  (GlobalSetup.launchAndAuthenticate env w).1 = Throw e
  /\ browsers (GlobalSetup.launchAndAuthenticate env w).2 = browsers w.
Proof. intros Hl. run. by rewrite Hl. Qed.

(** A rejection of [browser.createContext()] leaves the launched browser
    running: the call stands before the [try], so [browser.close()] is
    never issued. *)
Lemma createContext_rejected_leaks w e :
  rejects env Launch = None ->
  rejects env (CreateContext (next_browser w)) = Some e ->
  (GlobalSetup.launchAndAuthenticate env w).1 = Throw e
  /\ browsers (GlobalSetup.launchAndAuthenticate env w).2
     = {[next_browser w]} ∪ browsers w
  /\ calls (GlobalSetup.launchAndAuthenticate env w).2
     = calls w ++ [Launch; CreateContext (next_browser w)].
Proof.
  intros Hl Hc. run. rewrite Hl. simpl. rewrite Hc. simpl.
  by rewrite <- app_assoc.
Qed.

(** So does a rejection of [context.newPage()]. *)
Lemma newPage_rejected_leaks w e :
  rejects env Launch = None ->
  rejects env (CreateContext (next_browser w)) = None ->
  rejects env NewPage = Some e ->
  (GlobalSetup.launchAndAuthenticate env w).1 = Throw e
  /\ browsers (GlobalSetup.launchAndAuthenticate env w).2
     = {[next_browser w]} ∪ browsers w.
Proof.
  intros Hl Hc Hp. run. rewrite Hl. simpl. rewrite Hc. simpl. by rewrite Hp.
Qed.

(** Once the three acquisitions are through, the [finally] block closes
    the browser, whatever the [try] block did, and an error of the [try]
    block is thrown again. *)
Lemma try_block_closes_browser w :
  rejects env Launch = None ->
  rejects env (CreateContext (next_browser w)) = None ->
  rejects env NewPage = None ->
  rejects env (CloseBrowser (next_browser w)) = None ->
  browsers (GlobalSetup.launchAndAuthenticate env w).2
  = ({[next_browser w]} ∪ browsers w) ∖ {[next_browser w]}
  /\ exists w3, (GlobalSetup.launchAndAuthenticate env w).1
                = (GlobalSetup.authenticate env w3).1.
Proof.
  intros Hl Hc Hp Hx. run. rewrite Hl. simpl. rewrite Hc. simpl.
  rewrite Hp. simpl.
  unfold try_finally, try_catch, browser_close, issue, record, bind, modify,
    throw, console_log. simpl.
  match goal with
  | |- context [GlobalSetup.authenticate env ?w3] =>
      pose proof (preserves_authenticate env browsers
                    (fun _ _ => eq_refl) (fun _ _ => eq_refl)
                    (fun _ _ => eq_refl) (fun _ _ _ => eq_refl)
                    (fun _ _ _ _ => eq_refl) (fun _ _ => eq_refl) w3) as Hb;
      destruct (GlobalSetup.authenticate env w3) as [[[] | e] w4] eqn:Ea
  end; simpl in *; rewrite Hx; simpl; rewrite Hb; split; try done;
    eexists; rewrite Ea; reflexivity.
Qed.

End Launch.

(** C6, at the failing input. Global set-up runs on a machine without an
    auth file; the browser starts and [browser.createContext()] rejects.
    The error reaches the caller while the browser that was started is
    still running: the failed acquisition has not been torn down. *)
Theorem globalSetup_leaks_browser :
  let w := initial (Disk.empty (Text := SessionState)) 0 in
  let r := GlobalSetup.globalSetup no_createContext w in
  r.1 = Throw (TypeError "browser.createContext is not a function")
  /\ browsers w = ∅
  /\ browsers r.2 = {[0%nat]}
  /\ CloseBrowser 0 ∉ calls r.2.
Proof.
  simpl. rewrite globalSetup_run.
  change (existsPath GlobalSetup.authFile (fs (initial Disk.empty 0))) with false.
  cbv iota.
  destruct (createContext_rejected_leaks no_createContext
              (prepared (initial (Disk.empty (Text := SessionState)) 0))
              (TypeError "browser.createContext is not a function")
              eq_refl eq_refl) as (Hr & Hb & Hc).
  rewrite Hr, Hb, Hc. repeat split; try done.
  intros Hin%list_elem_of_In. vm_compute in Hin.
  destruct Hin as [Hin | [Hin | []]]; discriminate.
Qed.

(** The sibling path: when the failure is inside the [try] block, the
    browser is closed before the error reaches the caller. *)
Example globalSetup_closes_browser_on_try_failure :
  let w := initial (Disk.empty (Text := SessionState)) 0 in
  let r := GlobalSetup.globalSetup no_network w in
  r.1 = Throw (TimeoutError "page.goto")
  /\ CloseBrowser 0 ∈ calls r.2
  /\ 0%nat ∉ browsers r.2.
Proof.
  split; [| split].
  - vm_compute. reflexivity.
  - apply list_elem_of_In. vm_compute. tauto.
  - intros Hin. vm_compute in Hin. discriminate Hin.
Qed.

(** ** Reuse, capture and the missing file *)

Lemma globalSetup_decides_by_existence_witness :
  ((GlobalSetup.globalSetup no_createContext stale_world).1 = Return tt
   /\ calls (GlobalSetup.globalSetup no_createContext stale_world).2
      = calls stale_world
   /\ browsers (GlobalSetup.globalSetup no_createContext stale_world).2
      = browsers stale_world
   /\ readFile GlobalSetup.authFile
        (fs (GlobalSetup.globalSetup no_createContext stale_world).2)
      = readFile GlobalSetup.authFile (fs stale_world)
   /\ mtimeMs GlobalSetup.authFile
        (fs (GlobalSetup.globalSetup no_createContext stale_world).2)
      = mtimeMs GlobalSetup.authFile (fs stale_world))
  /\ (GlobalSetup.globalSetup no_createContext fresh_world
      = GlobalSetup.launchAndAuthenticate no_createContext (prepared fresh_world)
      /\ exists rest,
           calls (GlobalSetup.globalSetup no_createContext fresh_world).2
           = calls fresh_world ++ Launch :: rest).
Proof.
  split.
  - apply (proj1 (globalSetup_decides_by_existence no_createContext stale_world)).
    vm_compute. reflexivity.
  - apply (proj2 (globalSetup_decides_by_existence no_createContext fresh_world)).
    vm_compute. reflexivity.
Defined.

(** C2, as stated, fails: the auth file of [stale_world] is thirty days
    old, stale for a maximal age of one hour, and global set-up reuses it:
    no capture is issued. *)
Lemma globalSetup_stale_reuse_counterexample :
  ~ (forall (w : World (Disk.t SessionState)) capturedAt maxAgeMs,
        mtimeMs GlobalSetup.authFile (fs w) = Some capturedAt ->
        isStale capturedAt maxAgeMs (clock w) = true ->
        StorageState GlobalSetup.authFile
          ∈ calls (GlobalSetup.globalSetup logs_in w).2).
Proof.
  intros H. specialize (H stale_world 0 3600000 eq_refl eq_refl).
  apply list_elem_of_In in H. vm_compute in H. exact H.
Qed.

(** On a machine without the file, set-up logs in and captures: the file
    then holds the session, stamped with the time of the capture, and the
    browser is closed. *)
Example globalSetup_captures :
  let r := GlobalSetup.globalSetup logs_in fresh_world in
  r.1 = Return tt
  /\ readFile GlobalSetup.authFile (fs r.2) = Some sample_state
  /\ mtimeMs GlobalSetup.authFile (fs r.2) = Some 1000
  /\ (AuthSpec.test02 r.2).1 = Return tt.
Proof. vm_compute. repeat split. Qed.

Section MissingFile.
Context {Text F : Type} `{!JSON Text} `{!FileSystem Text F}.
Variable env : Env.
Implicit Type w : World F.

Lemma readAuthData_missing w id :
  readFile id (fs w) = None ->
  AuthSpec.readAuthData (Text := Text) id w
  = (Throw (if existsPath id (fs w) then EISDIR id else ENOENT id), w).
Proof.
  intros Hread. unfold AuthSpec.readAuthData, readFileSync, bind.
  by rewrite Hread.
Qed.

(** C3 (amended). Loading an identifier that was never persisted raises:
    [JSON.parse(fs.readFileSync(id))] throws the error of the missing
    file (ENOENT), the world is as before and nothing that follows the
    load runs. There is no NotFound value and no fall-back to an
    unauthenticated context. *)
Theorem readAuthData_never_persisted w id :
  readFile id (fs w) = None ->
  existsPath id (fs w) = false ->
  AuthSpec.readAuthData (Text := Text) id w = (Throw (ENOENT id), w)
  /\ forall A (k : SessionState -> M (World F) A),
       (s ← AuthSpec.readAuthData (Text := Text) id; k s) w
       = (Throw (ENOENT id), w).
Proof.
  intros Hread Hex.
  assert (E : AuthSpec.readAuthData (Text := Text) id w = (Throw (ENOENT id), w)).
  { rewrite (readAuthData_missing w id Hread). by rewrite Hex. }
  split; [exact E |]. intros A k. unfold bind. by rewrite E.
Qed.

(** Test 02 on a machine without the auth file fails on its first line. *)
Lemma test02_without_auth_file w :
  readFile AuthSpec.authFile (fs w) = None ->
  existsPath AuthSpec.authFile (fs w) = false ->
  AuthSpec.test02 (Text := Text) w = (Throw (ENOENT AuthSpec.authFile), w).
Proof.
  intros Hread Hex. unfold AuthSpec.test02, bind at 1.
  rewrite (readAuthData_missing w _ Hread). by rewrite Hex.
Qed.

End MissingFile.

Lemma readAuthData_never_persisted_witness :
  AuthSpec.readAuthData (Text := SessionState) "auth/admin-auth.json" fresh_world
  = (Throw (ENOENT "auth/admin-auth.json"), fresh_world)
  /\ forall A (k : SessionState -> M (World (Disk.t SessionState)) A),
       (s ← AuthSpec.readAuthData (Text := SessionState) "auth/admin-auth.json"; k s)
         fresh_world
       = (Throw (ENOENT "auth/admin-auth.json"), fresh_world).
Proof.
  apply (readAuthData_never_persisted fresh_world "auth/admin-auth.json").
  - vm_compute. reflexivity.
  - vm_compute. reflexivity.
Defined.

(** C3, as stated, fails: on a machine without the auth file the load does
    not return a value, it raises. *)
Lemma readAuthData_raises_counterexample :
  ~ (forall (w : World (Disk.t SessionState)) id,
        readFile id (fs w) = None ->
        exists v, (AuthSpec.readAuthData (Text := SessionState) id w).1 = Return v).
Proof.
  intros H.
  assert (Hnone : readFile AuthSpec.authFile (fs fresh_world) = None)
    by (vm_compute; reflexivity).
  destruct (H fresh_world AuthSpec.authFile Hnone) as [v Hv].
  rewrite (readAuthData_missing fresh_world AuthSpec.authFile Hnone) in Hv.
  discriminate Hv.
Qed.

(** ** Waiting for the new page *)

Section NewPage.
Context {F : Type}.
Variable env : Env.
Implicit Type w : World F.

Lemma settle_lookup (p : nat) (hit : list (nat * string)) (st : gmap nat nat) k :
  (exists ev, (k, ev) ∈ hit) ->
  foldr (fun kv st' => <[kv.1 := p]> st') st hit !! k = Some p.
Proof.
  intros [ev Hin]. induction hit as [| [k' ev'] hit IH]; simpl.
  - by apply elem_of_nil in Hin.
  - destruct (decide (k' = k)) as [-> | Hne].
    + apply lookup_insert_eq.
    + rewrite lookup_insert_ne by done. apply IH.
      apply elem_of_cons in Hin as [Heq | Hin]; [congruence | done].
Qed.

Lemma settle_lookup_other (p : nat) (hit : list (nat * string)) (st : gmap nat nat) k :
  (forall ev, (k, ev) ∉ hit) ->
  foldr (fun kv st' => <[kv.1 := p]> st') st hit !! k = st !! k.
Proof.
  intros Hout. induction hit as [| [k' ev'] hit IH]; simpl; [done |].
  rewrite lookup_insert_ne.
  - apply IH. intros ev Hin. apply (Hout ev). by apply elem_of_cons; right.
  - intros ->. apply (Hout ev'). apply elem_of_cons. by left.
Qed.

(** An event resolves every waiter that is pending on it. *)
Lemma emit_page_settles p w k :
  (k, "page"%string) ∈ waiters w -> settled (emit_page p w) !! k = Some p.
Proof.
  intros Hin. unfold emit_page. simpl.
  apply settle_lookup. exists "page"%string.
  apply list_elem_of_filter. by split.
Qed.

(** After an event, no waiter is pending on it any more. *)
Lemma emit_page_clears p w k : (k, "page"%string) ∉ waiters (emit_page p w).
Proof.
  unfold emit_page. simpl. intros Hin.
  apply list_elem_of_filter in Hin as [Hne _]. by apply Hne.
Qed.

(** A waiter that is not pending on the event keeps what it has. *)
Lemma emit_page_keeps p w k :
  (k, "page"%string) ∉ waiters w ->
  settled (emit_page p w) !! k = settled w !! k.
Proof.
  intros Hout. unfold emit_page. simpl.
  apply settle_lookup_other. intros ev Hin.
  apply list_elem_of_filter in Hin as [Hev Hin]. simpl in Hev. subst ev.
  by apply Hout.
Qed.

Lemma emit_pages_keep ps w k :
  (k, "page"%string) ∉ waiters w ->
  settled (fold_left (fun w' p => emit_page p w') ps w) !! k = settled w !! k.
Proof.
  revert w. induction ps as [| p ps IH]; intros w Hout; simpl; [done |].
  rewrite IH by apply emit_page_clears. by apply emit_page_keeps.
Qed.

(** The first of the pages that open resolves the pending waiter. *)
Lemma emit_pages_first p ps w k :
  (k, "page"%string) ∈ waiters w ->
  settled (fold_left (fun w' q => emit_page q w') (p :: ps) w) !! k = Some p.
Proof.
  intros Hin. simpl.
  rewrite emit_pages_keep by apply emit_page_clears.
  by apply emit_page_settles.
Qed.

(** C9. In [clickNewWindowLink] the waiter for the 'page' event is
    registered before the click is issued: the two calls reach the driver
    in that order, in every execution. When the click resolves and opens
    at least one page, the operation returns the first page that opened,
    whatever waiters and pages the context had before. *)
Theorem clickNewWindowLink_subscribes_first w :
  let r := InternetPage.clickNewWindowLink env w in
  calls r.2 = calls w ++ [WaitForEvent "page"; Click InternetPage.newWindowLink]
  /\ (forall p ps,
        rejects env (Click InternetPage.newWindowLink) = None ->
        opens env InternetPage.newWindowLink = p :: ps ->
        r.1 = Return p).
Proof.
  unfold InternetPage.clickNewWindowLink, context_waitForEvent, page_click,
    await_event, issue, record, bind, modify, throw. simpl.
  destruct (rejects env (Click InternetPage.newWindowLink)) as [e |] eqn:Hrej;
    simpl.
  - split; [by rewrite <- app_assoc | intros p ps Hnone; discriminate].
  - match goal with
    | |- context [settled ?wf !! ?k] =>
        set (final := wf); set (key := k)
    end.
    assert (Hcalls : calls final = (calls w ++ [WaitForEvent "page"])
                                    ++ [Click InternetPage.newWindowLink]).
    { subst final.
      apply (proj_emit_pages (F := F) calls (fun _ _ _ => eq_refl)
               (fun _ _ _ _ => eq_refl)). }
    split.
    + destruct (settled final !! key); simpl; by rewrite Hcalls, <- app_assoc.
    + intros p ps _ Hopens.
      assert (Hp : settled final !! key = Some p).
      { subst final key. rewrite Hopens. apply emit_pages_first. simpl.
        apply elem_of_app. right. apply list_elem_of_singleton. reflexivity. }
      by rewrite Hp.
Qed.

End NewPage.

Lemma clickNewWindowLink_subscribes_first_witness :
  let r := InternetPage.clickNewWindowLink opens_tab
             (initial (Disk.empty (Text := SessionState)) 0) in
  calls r.2 = [WaitForEvent "page"; Click InternetPage.newWindowLink]
  /\ r.1 = Return 7%nat.
Proof.
  destruct (clickNewWindowLink_subscribes_first opens_tab
              (initial (Disk.empty (Text := SessionState)) 0)) as [Hcalls Hpage].
  split; [exact Hcalls |].
  apply (Hpage 7%nat []); reflexivity.
Defined.

Example clickNewWindowLink_returns_the_tab :
  (InternetPage.clickNewWindowLink opens_tab
     (initial (Disk.empty (Text := SessionState)) 0)).1 = Return 7%nat.
Proof. vm_compute. reflexivity. Qed.

(** With the click first, the event is gone when the waiter registers, and
    the wait runs into its timeout. *)
Example clickThenWait_misses_the_tab :
  (clickThenWait opens_tab (initial (Disk.empty (Text := SessionState)) 0)).1
  = Throw (TimeoutError "waitForEvent").
Proof. vm_compute. reflexivity. Qed.

(** ** The engine matrix *)

Section Matrix.
Import Orchestration.

(** C4. [expand] is a function of its two arguments alone. For a set of
    targets in declaration order, its result has as many elements as the
    set, every element pairs the test with a target of the set, no pair
    comes twice, and the targets come in their declaration order; for no
    target at all it is the empty sequence. *)
Theorem expand_matrix (targets : list EngineTarget) (t : TestId) :
  NoDup targets ->
  length (expand targets t) = length targets
  /\ (forall r, r ∈ expand targets t -> r.1 = t /\ r.2 ∈ targets)
  /\ map snd (expand targets t) = targets
  /\ NoDup (expand targets t)
  /\ expand [] t = [].
Proof.
  intros Hnd. unfold expand.
  split; [apply length_map |].
  split; [| split; [| split; [| reflexivity]]].
  - intros r Hr. apply list_elem_of_fmap in Hr as (tg & -> & Hin). by split.
  - rewrite map_map. simpl. apply map_id.
  - assert (Hinj : Inj (=) (=) (fun tg : EngineTarget => (t, tg))).
    { intros x y Hxy. by inversion Hxy. }
    exact (NoDup_fmap_2 _ targets Hnd).
Qed.

End Matrix.

Lemma expand_matrix_witness :
  length (Orchestration.expand projects "shopping flow") = 5%nat
  /\ (forall r, r ∈ Orchestration.expand projects "shopping flow" ->
       r.1 = "shopping flow"%string /\ r.2 ∈ projects)
  /\ map snd (Orchestration.expand projects "shopping flow") = projects
  /\ NoDup (Orchestration.expand projects "shopping flow")
  /\ Orchestration.expand [] "shopping flow" = [].
Proof.
  apply (expand_matrix projects "shopping flow").
  apply (@bool_decide_unpack _ (@NoDup_dec _ Orchestration.EngineTarget_eq_dec projects)).
  vm_compute. reflexivity.
Defined.

(** ** The context pool *)

Section PoolFacts.
Import Orchestration.
Variable keepWarm : bool.




(** Acquiring and releasing at once leaves as many open contexts as
    before. *)
Lemma acquire_release_contexts (tg : EngineTarget) (p : Pool) :
  contexts p !! next_context p = None ->
  contexts (release keepWarm (next_context p) (acquire Acquires tg p).2)
  = contexts p.
Proof.
  intros Hfresh. unfold release. simpl. rewrite lookup_insert_eq. simpl.
  rewrite delete_insert_eq. by apply delete_id.
Qed.

End PoolFacts.

(** ** The cleanup of the multi-page test *)

Section PageCleanup.
Context {F : Type}.
Variable env : Env.
Implicit Type w : World F.

(** The guard of the [finally] block: on a page that is closed already,
    no second [page.close()] is issued. *)
Lemma closeUnlessClosed_closed w page2 :
  page2 ∉ open_pages w ->
  MultiTabSpec.closeUnlessClosed env page2 w = (Return tt, w).
Proof.
  intros Hclosed.
  unfold MultiTabSpec.closeUnlessClosed, page_isClosed, bind, gets, when, ret.
  by rewrite bool_decide_eq_true_2.
Qed.

(** On an open page it issues the one close. *)
Lemma closeUnlessClosed_open w page2 :
  page2 ∈ open_pages w ->
  rejects env (ClosePage page2) = None ->
  let r := MultiTabSpec.closeUnlessClosed env page2 w in
  r.1 = Return tt
  /\ calls r.2 = calls w ++ [ClosePage page2]
  /\ page2 ∉ open_pages r.2.
Proof.
  intros Hopen Hrej.
  unfold MultiTabSpec.closeUnlessClosed, page_isClosed, page_close, issue,
    record, bind, gets, modify, when, ret.
  rewrite bool_decide_eq_false_2 by (intros Hn; by apply Hn).
  simpl. rewrite Hrej. simpl. repeat split.
  apply not_elem_of_difference. right. by apply elem_of_singleton.
Qed.

(** [closePage] twice: the second call meets a closed page and leaves
    the set of open pages as it is. *)
Lemma closePage_twice w page :
  rejects env (ClosePage page) = None ->
  open_pages ((InternetPage.closePage env page ;;
               InternetPage.closePage env page) w).2
  = open_pages (InternetPage.closePage env page w).2.
Proof.
  intros Hrej.
  unfold InternetPage.closePage, page_close, issue, record, bind, modify.
  simpl. rewrite Hrej. simpl.
  apply set_eq. intros x. rewrite !elem_of_difference. tauto.
Qed.

End PageCleanup.

(** The test with every call resolving: the page is closed once, in the
    [try] block, and the [finally] block finds it closed. *)
Example testMultiplePages_closes_once :
  let r := MultiTabSpec.testMultiplePages quiet
             (initial (Disk.empty (Text := SessionState)) 0) in
  r.1 = Return tt
  /\ filter (fun c => c = ClosePage 0) (calls r.2) = [ClosePage 0].
Proof. vm_compute. split; reflexivity. Qed.

(** ** The test runner *)

Section RunnerFacts.
Import Orchestration.
Variable timeoutMs : Z.
Variable keepWarm : bool.
Variable fates : Fates.
Variable targetsOf : TestId -> list EngineTarget.

Lemma step_report r wk :
  report (step timeoutMs keepWarm fates r wk)
  = report r ++ [verdict timeoutMs fates wk].
Proof.
  destruct wk as [t tg | t]; simpl; [| reflexivity].
  unfold runOne, acquire.
  destruct (acquire_fate fates t tg); simpl; try reflexivity.
  by destruct (judge timeoutMs (body_fate fates t tg)) as [[o ms] f].
Qed.

Lemma runQueue_report queue r :
  report (runQueue timeoutMs keepWarm fates queue r)
  = report r ++ map (verdict timeoutMs fates) queue.
Proof.
  unfold runQueue. revert r.
  induction queue as [| wk queue IH]; intros r; simpl.
  - by rewrite app_nil_r.
  - rewrite IH, step_report. by rewrite <- app_assoc.
Qed.

Lemma verdict_key wk : result_key (verdict timeoutMs fates wk) = work_key wk.
Proof.
  destruct wk as [t tg | t]; simpl; [| reflexivity].
  destruct (acquire_fate fates t tg); try reflexivity.
  by destruct (judge timeoutMs (body_fate fates t tg)) as [[o ms] f].
Qed.

Lemma verdict_in_error t tg :
  in_error timeoutMs fates t tg ->
  let res := verdict timeoutMs fates (RunItem t tg) in
  (outcome res = failed \/ outcome res = timedOut) /\ is_Some (failure res).
Proof.
  unfold in_error. intros Herr. simpl.
  destruct (acquire_fate fates t tg) eqn:Ea; simpl.
  - destruct Herr as [Herr | Herr]; [done |].
    unfold judge.
    destruct (body_fate fates t tg) as [ms | msg ms | | ms]; simpl.
    + destruct (Z.ltb_spec timeoutMs ms); [| lia]. simpl. split; [by right | by eexists].
    + destruct (timeoutMs <? ms)%Z; simpl; split; eauto.
    + split; [by right | by eexists].
    + destruct (timeoutMs <? ms)%Z; simpl; split; eauto.
  - split; [by left | by eexists].
  - split; [by left | by eexists].
Qed.

(** C5. Every run of the queue is executed and recorded: the report grows
    by one result per scheduled item, in order, and the result of an item
    is the verdict that its own fates determine, whatever happened to the
    runs before it. A run in error - a failed acquisition or seed, a
    thrown exception, a timeout, a crash of the engine - is recorded as
    failed or timedOut with its failure attached. *)
Theorem failures_are_isolated (queue : list Work) (r : Runner) :
  report (runQueue timeoutMs keepWarm fates queue r)
  = report r ++ map (verdict timeoutMs fates) queue
  /\ forall t tg,
       RunItem t tg ∈ queue ->
       in_error timeoutMs fates t tg ->
       exists res,
         res ∈ report (runQueue timeoutMs keepWarm fates queue r)
         /\ result_key res = (t, Some tg)
         /\ (outcome res = failed \/ outcome res = timedOut)
         /\ is_Some (failure res).
Proof.
  split; [apply runQueue_report |].
  intros t tg Hin Herr.
  exists (verdict timeoutMs fates (RunItem t tg)).
  split; [| split; [apply (verdict_key (RunItem t tg)) | by apply verdict_in_error]].
  rewrite runQueue_report. apply elem_of_app. right.
  apply list_elem_of_fmap. by exists (RunItem t tg).
Qed.

(** The verdict of one item does not look at the fates of another. *)
Lemma verdict_local (fates' : Fates) wk :
  (forall t tg, wk = RunItem t tg ->
     acquire_fate fates' t tg = acquire_fate fates t tg
     /\ body_fate fates' t tg = body_fate fates t tg) ->
  verdict timeoutMs fates' wk = verdict timeoutMs fates wk.
Proof.
  intros Hsame. destruct wk as [t tg | t]; simpl; [| reflexivity].
  destruct (Hsame t tg eq_refl) as [-> ->]. reflexivity.
Qed.

End RunnerFacts.

(** ** The suite report *)

Section ReportFacts.
Import Orchestration.
Variable timeoutMs : Z.
Variable keepWarm : bool.
Variable fates : Fates.
Variable targetsOf : TestId -> list EngineTarget.

Lemma runSuite_report cancelAfter tests :
  report (runSuite timeoutMs keepWarm fates targetsOf cancelAfter tests)
  = map (verdict timeoutMs fates)
      (match cancelAfter with
       | Some k => take k (schedule targetsOf tests)
       | None => schedule targetsOf tests
       end).
Proof. unfold runSuite. by rewrite runQueue_report. Qed.

Lemma schedule1_keys t :
  map work_key (schedule1 targetsOf t) = expected_keys targetsOf t.
Proof.
  unfold schedule1, expected_keys.
  destruct (expand (targetsOf t) t) as [| r runs]; [reflexivity |].
  by rewrite map_map.
Qed.

Lemma schedule_keys tests :
  map work_key (schedule targetsOf tests)
  = concat (map (expected_keys targetsOf) tests).
Proof.
  unfold schedule. induction tests as [| t tests IH]; simpl; [reflexivity |].
  by rewrite map_app, IH, schedule1_keys.
Qed.

Lemma verdict_without_target wk :
  target (verdict timeoutMs fates wk) = None ->
  outcome (verdict timeoutMs fates wk) = skipped.
Proof.
  destruct wk as [t tg | t]; simpl; [| reflexivity].
  destruct (acquire_fate fates t tg); simpl; try discriminate.
  by destruct (judge timeoutMs (body_fate fates t tg)) as [[o ms] f].
Qed.

(** C8. The report of a suite that ran to its end has exactly one result
    per expanded (test, target) pair, and one skipped result for a test
    whose matrix gave no pair; no other result is without a target. The
    report of a suite that was cancelled when [k] runs had completed
    holds the results of those runs, as the full report has them. *)
Theorem report_covers_schedule (tests : list TestId) :
  let full := finalize (runSuite timeoutMs keepWarm fates targetsOf None tests) in
  map result_key (results full) = concat (map (expected_keys targetsOf) tests)
  /\ (forall res, res ∈ results full -> target res = None -> outcome res = skipped)
  /\ forall k,
       results (finalize (runSuite timeoutMs keepWarm fates targetsOf (Some k) tests))
       = take k (results full).
Proof.
  simpl. rewrite runSuite_report. split; [| split].
  - rewrite map_map. rewrite <- schedule_keys.
    apply map_ext. intros wk. apply verdict_key.
  - intros res Hin Hnone.
    apply list_elem_of_fmap in Hin as (wk & -> & _).
    by apply verdict_without_target.
  - intros k. rewrite runSuite_report. symmetry. apply firstn_map.
Qed.

(** The derived counts add up to the number of results. *)
Lemma finalize_counts r :
  let rep := finalize r in
  (passedCount rep + failedCount rep + skippedCount rep + timedOutCount rep
   = length (results rep))%nat.
Proof.
  simpl. unfold count_outcome.
  induction (report r) as [| res rs IH]; [reflexivity |].
  rewrite !filter_cons. destruct (outcome res); simpl;
    repeat case_decide; try discriminate; try congruence; simpl; lia.
Qed.

End ReportFacts.

(** The scenario of the specification: two targets, the launch of the
    webkit-like engine fails; the report has both results, one passed and
    one failed. *)
Example suite_with_webkit_down :
  map (fun r => (Orchestration.result_key r, Orchestration.outcome r))
    (Orchestration.report
       (Orchestration.runSuite 30000 false webkit_down
          (fun _ => [chromium; webkit]) None ["page title"%string]))
  = [ (("page title"%string, Some chromium), Orchestration.passed);
      (("page title"%string, Some webkit), Orchestration.failed) ].
Proof. vm_compute. reflexivity. Qed.

(** A suite with a test that has no target, cancelled after one run. *)
Example suite_cancelled_after_one :
  map (fun r => (Orchestration.result_key r, Orchestration.outcome r))
    (Orchestration.results
       (Orchestration.finalize
          (Orchestration.runSuite 30000 false webkit_down
             (fun t => if String.eqb t "no target" then [] else [webkit; chromium])
             (Some 2%nat) ["no target"%string; "page title"%string])))
  = [ (("no target"%string, None), Orchestration.skipped);
      (("page title"%string, Some webkit), Orchestration.failed) ].
Proof. vm_compute. reflexivity. Qed.

Lemma failures_are_isolated_witness :
  exists res,
    res ∈ Orchestration.report
            (Orchestration.runQueue 30000 false webkit_down
               [Orchestration.RunItem "page title" webkit;
                Orchestration.RunItem "page title" chromium]
               {| Orchestration.pool := Orchestration.empty_pool;
                  Orchestration.report := [] |})
    /\ Orchestration.result_key res = ("page title"%string, Some webkit)
    /\ (Orchestration.outcome res = Orchestration.failed
        \/ Orchestration.outcome res = Orchestration.timedOut)
    /\ is_Some (Orchestration.failure res).
Proof.
  apply (proj2 (failures_are_isolated 30000 false webkit_down
                  [Orchestration.RunItem "page title" webkit;
                   Orchestration.RunItem "page title" chromium]
                  {| Orchestration.pool := Orchestration.empty_pool;
                     Orchestration.report := [] |})
               "page title"%string webkit).
  - apply elem_of_cons. left. reflexivity.
  - left. simpl. discriminate.
Defined.

(** Test 01 on a machine without the auth file, with a site that logs the
    user in: the state is saved, read back and found to hold a cookie; test
    02 then passes on the saved file. *)
Example test01_then_test02 :
  let r := AuthSpec.test01 logs_in fresh_world in
  r.1 = Return tt
  /\ readFile AuthSpec.authFile (fs r.2) = Some sample_state
  /\ (AuthSpec.test02 r.2).1 = Return tt.
Proof. vm_compute. repeat split. Qed.

(** With a site that stores nothing on the login, test 01 fails on its
    check of the cookies. *)
Example test01_without_cookies :
  (AuthSpec.test01 quiet fresh_world).1
  = Throw (AssertionError "cookies.length > 0").
Proof. vm_compute. reflexivity. Qed.

(** The same round trip on the blob store, under the identifier of a role. *)
Example blob_store_roundtrip :
  ((BasePage.saveStorageState logs_in "admin" ;; AuthSpec.readAuthData "admin")
     (with_session sample_state (initial ([] : BlobStore.t SessionState) 0))).1
  = Return sample_state.
Proof. reflexivity. Qed.

(** * Further properties of the page objects, the set-up and the tests *)

(** ** The count of the cart badge *)

Section BadgeNumeral.
Context {F : Type}.
Variable env : Env.
Implicit Type w : World F.

Lemma radix10_digit_unit d : (d < 10)%N -> radix_digit 10 (digit_unit d) = Some d.
Proof.
  intros Hd. unfold radix_digit, digit_value, digit_unit.
  destruct (N.leb_spec 48 (48 + d)); [| lia].
  destruct (N.leb_spec (48 + d) 57); [| lia]. simpl.
  replace (48 + d - 48)%N with d by lia.
  destruct (N.ltb_spec d 10); [reflexivity | lia].
Qed.

Lemma digit_unit_is_digit d : (d < 10)%N -> is_decimal_digit (digit_unit d) = true.
Proof.
  intros Hd. unfold is_decimal_digit, digit_unit.
  destruct (N.leb_spec 48 (48 + d)); [| lia].
  destruct (N.leb_spec (48 + d) 57); [reflexivity | lia].
Qed.

(** [parseInt] takes the digits of a numeral and stops where they end. *)
Lemma take_digits_numeral ds rest :
  Forall (fun d => (d < 10)%N) ds ->
  begins_with_digit rest = false ->
  take_digits 10 (numeral ds ++ rest) = ds.
Proof.
  intros Hds Hrest. induction Hds as [| d ds Hd _ IH]; simpl.
  - destruct (take_digits 10 rest) eqn:E; [reflexivity |].
    assert (Hne : take_digits 10 rest <> []) by (rewrite E; discriminate).
    apply take_digits10_nonempty in Hne. congruence.
  - rewrite (radix10_digit_unit d Hd). by rewrite IH.
Qed.

Lemma numeral_after_sign ws sgn ds rest :
  forallb StrWhiteSpaceChar ws = true ->
  sgn = [] \/ sgn = [plus_sign] \/ sgn = [minus_sign] ->
  ds <> [] ->
  Forall (fun d => (d < 10)%N) ds ->
  strip_sign (trim_start (ws ++ sgn ++ numeral ds ++ rest)) = numeral ds ++ rest
  /\ is_negative (trim_start (ws ++ sgn ++ numeral ds ++ rest))
     = bool_decide (sgn = [minus_sign]).
Proof.
  intros Hws Hsgn Hne Hds.
  destruct ds as [| d ds]; [done |].
  apply Forall_cons in Hds as [Hd _].
  pose proof (digit_unit_is_digit d Hd) as Hdigit.
  destruct Hsgn as [-> | [-> | ->]]; simpl.
  - rewrite trim_start_app; [| done | by apply digit_not_space].
    split; [by apply strip_sign_digit |].
    unfold is_negative.
    pose proof (digit_not_sign _ Hdigit) as Hns.
    apply orb_false_iff in Hns as [_ Hminus]. by rewrite Hminus.
  - rewrite trim_start_app; [| done | reflexivity]. by split.
  - rewrite trim_start_app; [| done | reflexivity]. by split.
Qed.

(** X1. When the badge text is white space, an optional sign, a decimal
    numeral of a value up to 2^53 - the range in which a Number is the
    integer itself - and then anything that does not go on with a digit,
    [getCartItemCount] returns the value of the numeral, negative under a
    minus sign; what follows the numeral is ignored. *)
Theorem getCartItemCount_reads_numeral w ws sgn ds rest :
  rejects env (TextContent ProductsPage.cartBadge) = None ->
  dom w !! ProductsPage.cartBadge = Some (Some (ws ++ sgn ++ numeral ds ++ rest)) ->
  forallb StrWhiteSpaceChar ws = true ->
  sgn = [] \/ sgn = [plus_sign] \/ sgn = [minus_sign] ->
  ds <> [] ->
  Forall (fun d => (d < 10)%N) ds ->
  (digits_value 10 ds <= 2 ^ 53)%N ->
  begins_with_digit rest = false ->
  (ProductsPage.getCartItemCount env w).1
  = Return (Num (bool_decide (sgn = [minus_sign])) (digits_value 10 ds)).
Proof.
  intros Hrej Hdom Hws Hsgn Hne Hds Hsafe Hrest.
  rewrite (getCartItemCount_run env w _ Hrej Hdom). simpl.
  rewrite parseInt10_unfold.
  destruct (numeral_after_sign ws sgn ds rest Hws Hsgn Hne Hds) as [-> ->].
  rewrite (take_digits_numeral ds rest Hds Hrest).
  destruct ds; [done | reflexivity].
Qed.

(** X2. [getCartItemCount] raises exactly when the driver rejects the read
    or the page has no badge element; without a badge it raises the
    driver's timeout, it does not return 0 or NaN. In every case the one
    thing it does to the page is the read of the text content. *)
Theorem getCartItemCount_raises_without_badge w :
  let r := ProductsPage.getCartItemCount env w in
  r.2 = with_calls (calls w ++ [TextContent ProductsPage.cartBadge]) w
  /\ (is_return r.1 = true <->
      rejects env (TextContent ProductsPage.cartBadge) = None
      /\ is_Some (dom w !! ProductsPage.cartBadge))
  /\ (rejects env (TextContent ProductsPage.cartBadge) = None ->
      dom w !! ProductsPage.cartBadge = None ->
      r.1 = Throw (TimeoutError ProductsPage.cartBadge)).
Proof.
  unfold ProductsPage.getCartItemCount, BasePage.getText, page_textContent,
    issue, record, bind, modify, ret, throw. simpl.
  destruct (rejects env (TextContent ProductsPage.cartBadge)) as [e |]; simpl.
  - split; [reflexivity |]. split; [| discriminate].
    split; [discriminate | intros [Hn _]; discriminate].
  - destruct (dom w !! ProductsPage.cartBadge) as [t |]; simpl.
    + split; [reflexivity |]. split; [| discriminate].
      split; [by eauto | reflexivity].
    + split; [reflexivity |]. split; [| reflexivity].
      split; [discriminate | intros [_ [t Ht]]; discriminate].
Qed.

End BadgeNumeral.

Lemma getCartItemCount_reads_numeral_witness :
  (ProductsPage.getCartItemCount quiet
     (badge_world (Some (of_string " -12 items")))).1
  = Return (Num true 12).
Proof.
  apply (getCartItemCount_reads_numeral quiet
           (badge_world (Some (of_string " -12 items")))
           [32%N] [minus_sign] [1%N; 2%N] (of_string " items")).
  - reflexivity.
  - vm_compute. reflexivity.
  - reflexivity.
  - right. right. reflexivity.
  - discriminate.
  - repeat constructor.
  - vm_compute. discriminate.
  - reflexivity.
Defined.

(** ** Logging in and saving the state *)

Section Login.
Context {Text F : Type} `{!JSON Text} `{!FileSystem Text F}.
Variable env : Env.
Implicit Type w : World F.

Ltac run :=
  unfold LoginPage.login, BasePage.fillText, BasePage.click,
    BasePage.waitForElement, page_fill, page_click, page_waitForSelector,
    issue, record, bind, modify, ret, throw; simpl.

Lemma emit_pages_calls ps w :
  calls (fold_left (fun w' p => emit_page p w') ps w) = calls w.
Proof.
  revert w. induction ps as [| p ps IH]; intros w; simpl; [done |].
  by rewrite IH.
Qed.

Lemma emit_pages_fs ps w :
  fs (fold_left (fun w' p => emit_page p w') ps w) = fs w.
Proof.
  revert w. induction ps as [| p ps IH]; intros w; simpl; [done |].
  by rewrite IH.
Qed.

(** X3. [login] fills the user name, fills the password, clicks the login
    button and waits for the title of the products page, in this order, and
    stops at the first of these calls that rejects: the calls after it never
    reach the driver and its error is the error of [login]. It never
    changes the file system. *)
Theorem login_stops_at_first_rejection w username password :
  let r := LoginPage.login env username password w in
  calls r.2 = calls w ++ issued env (login_script username password)
  /\ r.1 = match first_rejection env (login_script username password) with
           | Some e => Throw e
           | None => Return tt
           end
  /\ fs r.2 = fs w.
Proof.
  run.
  destruct (rejects env (Fill LoginPage.usernameInput username)); simpl;
    [done |].
  destruct (rejects env (Fill LoginPage.passwordInput password)); simpl;
    [by rewrite <- app_assoc |].
  destruct (rejects env (Click LoginPage.loginButton)); simpl;
    [by rewrite <- !app_assoc |].
  destruct (rejects env (WaitForSelector LoginPage.productsTitle 10000)); simpl;
    rewrite ?emit_pages_calls, ?emit_pages_fs; simpl;
    by rewrite <- !app_assoc.
Qed.

Lemma login_fs w username password :
  fs (LoginPage.login env username password w).2 = fs w.
Proof.
  run.
  destruct (rejects env (Fill LoginPage.usernameInput username)); simpl;
    [done |].
  destruct (rejects env (Fill LoginPage.passwordInput password)); simpl;
    [done |].
  destruct (rejects env (Click LoginPage.loginButton)); simpl; [done |].
  destruct (rejects env (WaitForSelector LoginPage.productsTitle 10000)); simpl;
    by rewrite emit_pages_fs.
Qed.

(** X4. When the login fails, [loginAndSaveState] fails with the same
    error and saves nothing: no storage state is requested and the file
    system is as before. *)
Theorem loginAndSaveState_failed_login_saves_nothing w username password statePath e :
  (LoginPage.login env username password w).1 = Throw e ->
  let r := LoginPage.loginAndSaveState env username password statePath w in
  r.1 = Throw e
  /\ fs r.2 = fs w
  /\ calls r.2 = calls (LoginPage.login env username password w).2.
Proof.
  intros Hfail. unfold LoginPage.loginAndSaveState, bind.
  pose proof (login_fs w username password) as Hfs.
  destruct (LoginPage.login env username password w) as [[[] | e'] w1];
    simpl in *; [discriminate |].
  by inversion Hfail.
Qed.

End Login.

Lemma loginAndSaveState_failed_login_saves_nothing_witness :
  let r := LoginPage.loginAndSaveState wrong_password "standard_user" "wrong"
             "auth/auth.json" fresh_world in
  r.1 = Throw (TimeoutError "page.waitForSelector")
  /\ fs r.2 = fs fresh_world
  /\ calls r.2
     = calls (LoginPage.login wrong_password "standard_user" "wrong" fresh_world).2.
Proof.
  apply (loginAndSaveState_failed_login_saves_nothing wrong_password fresh_world
           "standard_user" "wrong" "auth/auth.json").
  reflexivity.
Defined.

Lemma loginAndSaveState_roundtrip_witness :
  ((LoginPage.loginAndSaveState logs_in "standard_user" "secret_sauce"
      "auth/auth.json" ;;
    AuthSpec.readAuthData "auth/auth.json") fresh_world).1
  = Return sample_state.
Proof.
  apply (loginAndSaveState_roundtrip logs_in fresh_world
           "standard_user" "secret_sauce" "auth/auth.json").
  intros c. reflexivity.
Defined.

Lemma saveStorageState_overwrites_witness :
  ((BasePage.saveStorageState quiet "auth/auth.json" ;;
    modify (with_session admin_state) ;;
    BasePage.saveStorageState quiet "auth/auth.json" ;;
    AuthSpec.readAuthData "auth/auth.json")
     (with_session sample_state fresh_world)).1
  = Return admin_state.
Proof.
  apply (saveStorageState_overwrites quiet sample_state admin_state
           "auth/auth.json" fresh_world).
  reflexivity.
Defined.

Section TwoUsers.
Context {Text F : Type} `{!JSON Text} `{!FileSystem Text F}
  `{!IndependentPaths Text F}.
Variable env : Env.
Implicit Type w : World F.

(** X7. States saved under different paths do not disturb each other: after
    one user's state is saved under [p] and another user's under [q], the
    file under [p] still reads back as the first state and the file under
    [q] as the second. *)
Theorem saveStorageState_two_users (s1 s2 : SessionState) (p q : string) w :
  p <> q ->
  rejects env (StorageState p) = None ->
  rejects env (StorageState q) = None ->
  let saved := (BasePage.saveStorageState env p ;;
                modify (with_session s2) ;;
                BasePage.saveStorageState env q) (with_session s1 w) in
  saved.1 = Return tt
  /\ (AuthSpec.readAuthData p saved.2).1 = Return s1
  /\ (AuthSpec.readAuthData q saved.2).1 = Return s2.
Proof.
  intros Hne Hp Hq.
  assert (Hsaved : exists w2,
             (BasePage.saveStorageState env p ;;
              modify (with_session s2) ;;
              BasePage.saveStorageState env q) (with_session s1 w)
             = (Return tt, w2)
             /\ fs w2 = writeFile q (stringify s2) (clock w)
                          (writeFile p (stringify s1) (clock w) (fs w))).
  { unfold bind at 1. rewrite (saveStorageState_run env _ _ Hp).
    unfold bind at 1. unfold modify at 1.
    rewrite (saveStorageState_run env _ _ Hq). by eexists. }
  destruct Hsaved as (w2 & -> & Hfs). simpl.
  split; [reflexivity |].
  unfold AuthSpec.readAuthData, readFileSync, JSON_parse, bind, ret.
  rewrite Hfs.
  rewrite (readFile_writeFile_ne q p) by congruence.
  rewrite !readFile_writeFile. simpl.
  by rewrite !parse_stringify.
Qed.

End TwoUsers.

Lemma saveStorageState_two_users_witness :
  let saved := (BasePage.saveStorageState quiet "auth/user-auth.json" ;;
                modify (with_session admin_state) ;;
                BasePage.saveStorageState quiet "auth/admin-auth.json")
                 (with_session sample_state fresh_world) in
  saved.1 = Return tt
  /\ (AuthSpec.readAuthData "auth/user-auth.json" saved.2).1 = Return sample_state
  /\ (AuthSpec.readAuthData "auth/admin-auth.json" saved.2).1 = Return admin_state.
Proof.
  apply (saveStorageState_two_users quiet sample_state admin_state
           "auth/user-auth.json" "auth/admin-auth.json" fresh_world).
  - discriminate.
  - reflexivity.
  - reflexivity.
Defined.

(** ** Global set-up, once more *)

Section SetupOutcomes.
Context {Text F : Type} `{!JSON Text} `{!FileSystem Text F}.
Variable env : Env.
Implicit Type w : World F.

Lemma emit_pages_clock ps w :
  clock (fold_left (fun w' p => emit_page p w') ps w) = clock w.
Proof.
  revert w. induction ps as [| p ps IH]; intros w; simpl; [done |].
  by rewrite IH.
Qed.

(** The [try] block either returns, and then the auth file holds what the
    click on the login button stored, or it throws, and then nothing was
    written. *)
Lemma authenticate_outcome w :
  let r := GlobalSetup.authenticate env w in
  (r.1 = Return tt
   /\ fs r.2 = writeFile GlobalSetup.authFile
                 (stringify (on_click env (attr "data-test" "login-button") (session w)))
                 (clock w) (fs w))
  \/ (exists e, r.1 = Throw e /\ fs r.2 = fs w).
Proof.
  unfold GlobalSetup.authenticate, page_goto, page_fill, page_click,
    page_waitForSelector, context_storageState, console_log, issue, record,
    bind, modify, ret, throw. simpl.
  destruct (rejects env (Goto "https://www.saucedemo.com/")); simpl;
    [right; by eexists |].
  destruct (rejects env (Fill (attr "data-test" "username") "standard_user"));
    simpl; [right; by eexists |].
  destruct (rejects env (Fill (attr "data-test" "password") "secret_sauce"));
    simpl; [right; by eexists |].
  destruct (rejects env (Click (attr "data-test" "login-button"))); simpl;
    [right; by eexists |].
  destruct (rejects env (WaitForSelector ".inventory_container" 10000)); simpl;
    [right; eexists; split; [reflexivity | by rewrite emit_pages_fs] |].
  destruct (rejects env (StorageState GlobalSetup.authFile)); simpl;
    [right; eexists; split; [reflexivity | by rewrite emit_pages_fs] |].
  left. split; [reflexivity |].
  by rewrite emit_pages_session, emit_pages_fs, emit_pages_clock.
Qed.

Lemma browser_close_world b w :
  fs (browser_close env b w).2 = fs w
  /\ calls (browser_close env b w).2 = calls w ++ [CloseBrowser b]
  /\ (rejects env (CloseBrowser b) = None ->
      (browser_close env b w).1 = Return tt
      /\ browsers (browser_close env b w).2 = browsers w ∖ {[b]}).
Proof.
  unfold browser_close, issue, record, bind, modify, throw. simpl.
  destruct (rejects env (CloseBrowser b)); simpl; repeat split; discriminate.
Qed.

(** From the launch to the [finally] block, when the three acquisitions
    resolve: the [try] block runs in the world [acquired w], and the browser
    is closed after it. *)
Lemma launchAndAuthenticate_try w :
  rejects env Launch = None ->
  rejects env (CreateContext (next_browser w)) = None ->
  rejects env NewPage = None ->
  rejects env (CloseBrowser (next_browser w)) = None ->
  GlobalSetup.launchAndAuthenticate env w
  = match GlobalSetup.authenticate env (acquired w) with
    | (Return _, w4) =>
        (Return tt, (browser_close env (next_browser w) w4).2)
    | (Throw e, w4) =>
        (Throw e,
         (browser_close env (next_browser w)
            (with_console (console w4 ++ ["Authentication setup failed"]) w4)).2)
    end.
Proof.
  intros Hl Hc Hp Hx.
  unfold GlobalSetup.launchAndAuthenticate, chromium_launch,
    browser_createContext, context_newPage, issue at 1 2 3, record, bind,
    modify, throw. simpl.
  rewrite Hl. simpl. rewrite Hc. simpl. rewrite Hp. simpl.
  unfold try_finally, try_catch, console_log, bind, modify, throw.
  change (GlobalSetup.authenticate env _)
    with (GlobalSetup.authenticate env (acquired w)).
  destruct (GlobalSetup.authenticate env (acquired w)) as [[[] | e] w4]; simpl.
  - destruct (browser_close_world (next_browser w) w4) as (_ & _ & Hok).
    destruct (Hok Hx) as [Hret _].
    destruct (browser_close env (next_browser w) w4) as [r5 w5]; simpl in *.
    by rewrite Hret.
  - match goal with
    | |- context [browser_close env _ ?w4'] =>
        destruct (browser_close_world (next_browser w) w4') as (_ & _ & Hok);
        destruct (Hok Hx) as [Hret _];
        destruct (browser_close env (next_browser w) w4') as [r5 w5]
    end; simpl in *.
    by rewrite Hret.
Qed.

Lemma acquired_fields w :
  session (acquired w) = Session.empty /\ fs (acquired w) = fs w
  /\ clock (acquired w) = clock w
  /\ browsers (acquired w) = {[next_browser w]} ∪ browsers w.
Proof. by repeat split. Qed.

Lemma authenticate_browsers w :
  browsers (GlobalSetup.authenticate env w).2 = browsers w.
Proof.
  exact (preserves_authenticate env browsers
           (fun _ _ => eq_refl) (fun _ _ => eq_refl) (fun _ _ => eq_refl)
           (fun _ _ _ => eq_refl) (fun _ _ _ _ => eq_refl) (fun _ _ => eq_refl) w).
Qed.

(** What reaches the file system between the launch and the end: on a
    return the capture of the login, on a throw nothing - as long as
    [browser.close()] itself does not reject. *)
Lemma launchAndAuthenticate_fs w :
  rejects env (CloseBrowser (next_browser w)) = None ->
  let r := GlobalSetup.launchAndAuthenticate env w in
  (r.1 = Return tt
   /\ fs r.2 = writeFile GlobalSetup.authFile
                 (stringify (on_click env (attr "data-test" "login-button")
                               Session.empty))
                 (clock w) (fs w))
  \/ (exists e, r.1 = Throw e /\ fs r.2 = fs w).
Proof.
  intros Hx.
  destruct (rejects env Launch) as [e |] eqn:Hl.
  { right. exists e. unfold GlobalSetup.launchAndAuthenticate, chromium_launch,
      issue, record, bind, modify, throw. simpl. by rewrite Hl. }
  destruct (rejects env (CreateContext (next_browser w))) as [e |] eqn:Hc.
  { right. exists e. unfold GlobalSetup.launchAndAuthenticate, chromium_launch,
      browser_createContext, issue, record, bind, modify, throw. simpl.
    rewrite Hl. simpl. by rewrite Hc. }
  destruct (rejects env NewPage) as [e |] eqn:Hp.
  { right. exists e. unfold GlobalSetup.launchAndAuthenticate, chromium_launch,
      browser_createContext, context_newPage, issue, record, bind, modify,
      throw. simpl.
    rewrite Hl. simpl. rewrite Hc. simpl. by rewrite Hp. }
  simpl. rewrite (launchAndAuthenticate_try w Hl Hc Hp Hx).
  destruct (authenticate_outcome (acquired w)) as [[Hr Hfs] | (e & Hr & Hfs)];
    destruct (GlobalSetup.authenticate env (acquired w)) as [[[] | e'] w4];
    simpl in *; try discriminate.
  - left. split; [reflexivity |].
    destruct (browser_close_world (next_browser w) w4) as (-> & _).
    exact Hfs.
  - right. exists e'. split; [reflexivity |].
    match goal with
    | |- context [browser_close env _ ?w4'] =>
        destruct (browser_close_world (next_browser w) w4') as (-> & _)
    end.
    exact Hfs.
Qed.

(** A return of the launch-and-authenticate part means that every step
    resolved, also the closing of the browser. *)
Lemma launchAndAuthenticate_returns w :
  (GlobalSetup.launchAndAuthenticate env w).1 = Return tt ->
  rejects env (CloseBrowser (next_browser w)) = None.
Proof.
  unfold GlobalSetup.launchAndAuthenticate, chromium_launch,
    browser_createContext, context_newPage, issue at 1 2 3, record, bind,
    modify, throw. simpl.
  destruct (rejects env Launch); simpl; [discriminate |].
  destruct (rejects env (CreateContext (next_browser w))); simpl; [discriminate |].
  destruct (rejects env NewPage); simpl; [discriminate |].
  unfold try_finally, browser_close, issue, record, bind, modify, throw.
  match goal with
  | |- context [try_catch ?c ?h ?w3] => destruct (try_catch c h w3) as [r4 w4]
  end. simpl.
  destruct (rejects env (CloseBrowser (next_browser w))); simpl;
    [discriminate | reflexivity].
Qed.

(** X9. After a run of global set-up that returned, the auth file exists,
    and a run that follows returns without a single driver call, leaving
    the browsers and the file as they are. *)
Theorem globalSetup_second_run_skips w :
  (GlobalSetup.globalSetup env w).1 = Return tt ->
  let w1 := (GlobalSetup.globalSetup env w).2 in
  let r := GlobalSetup.globalSetup env w1 in
  existsPath GlobalSetup.authFile (fs w1) = true
  /\ r.1 = Return tt
  /\ calls r.2 = calls w1
  /\ browsers r.2 = browsers w1
  /\ readFile GlobalSetup.authFile (fs r.2) = readFile GlobalSetup.authFile (fs w1).
Proof.
  intros Hret. simpl.
  assert (Hex1 : existsPath GlobalSetup.authFile
                   (fs (GlobalSetup.globalSetup env w).2) = true).
  { revert Hret. rewrite globalSetup_run.
    destruct (existsPath GlobalSetup.authFile (fs w)) eqn:Hex; simpl.
    - intros _. by rewrite prepared_exists.
    - intros Hret.
      pose proof (launchAndAuthenticate_returns (prepared w) Hret) as Hx.
      destruct (launchAndAuthenticate_fs (prepared w) Hx)
        as [[_ Hw] | (e & He & _)]; [| congruence].
      rewrite Hw. apply existsPath_writeFile. }
  split; [exact Hex1 |].
  rewrite (globalSetup_run env (GlobalSetup.globalSetup env w).2), Hex1. simpl.
  destruct (prepared_driver (GlobalSetup.globalSetup env w).2) as (Hc & Hb & _).
  by rewrite prepared_readFile, Hc, Hb.
Qed.


End SetupOutcomes.

Lemma globalSetup_second_run_skips_witness :
  let w1 := (GlobalSetup.globalSetup logs_in fresh_world).2 in
  let r := GlobalSetup.globalSetup logs_in w1 in
  existsPath GlobalSetup.authFile (fs w1) = true
  /\ r.1 = Return tt
  /\ calls r.2 = calls w1
  /\ browsers r.2 = browsers w1
  /\ readFile GlobalSetup.authFile (fs r.2) = readFile GlobalSetup.authFile (fs w1).
Proof.
  apply (globalSetup_second_run_skips logs_in fresh_world).
  vm_compute. reflexivity.
Defined.


(** ** The authentication tests *)

Section AuthTests.
Context {Text F : Type} `{!JSON Text} `{!FileSystem Text F}.
Variable env : Env.
Implicit Type w : World F.

Lemma bind_Return_inv {A B} (c : M (World F) A) (k : A -> M (World F) B) w b w' :
  bind c k w = (Return b, w') ->
  exists a w1, c w = (Return a, w1) /\ k a w1 = (Return b, w').
Proof.
  unfold bind. destruct (c w) as [[a | e] w1]; [| discriminate].
  intros Hk. by exists a, w1.
Qed.

Lemma expect_Return_inv c msg w u w' :
  expect c msg w = (Return u, w') -> c = true /\ w' = w.
Proof.
  unfold expect, ret, throw. destruct c; [| discriminate].
  intros Heq. by inversion Heq.
Qed.

Lemma storageState_Return_inv file w s w' :
  context_storageState env file w = (Return s, w') ->
  fs w' = writeFile file (stringify s) (clock w) (fs w).
Proof.
  unfold context_storageState, issue, record, bind, modify, throw. simpl.
  destruct (rejects env (StorageState file)); [discriminate |].
  intros Heq. by inversion Heq.
Qed.

(** Test 02 on a readable file with a cookie. *)
Lemma test02_run w txt s :
  readFile AuthSpec.authFile (fs w) = Some txt ->
  parse txt = Some s ->
  cookies s <> [] ->
  (AuthSpec.test02 w).1 = Return tt.
Proof.
  intros Hread Hparse Hcookies.
  unfold AuthSpec.test02, AuthSpec.readAuthData, readFileSync, JSON_parse,
    expect, console_log, bind, modify, ret, throw.
  rewrite Hread, Hparse. simpl.
  destruct (cookies s); [done | reflexivity].
Qed.

(** X12. Test 02 passes exactly when the auth file can be read, parses as
    a storage state and holds at least one cookie. Pass or fail, it issues
    no driver call and leaves the file system as it is. *)
Theorem test02_passes_iff w :
  ((AuthSpec.test02 w).1 = Return tt <->
   exists txt s,
     readFile AuthSpec.authFile (fs w) = Some txt
     /\ parse txt = Some s
     /\ cookies s <> [])
  /\ calls (AuthSpec.test02 w).2 = calls w
  /\ fs (AuthSpec.test02 w).2 = fs w.
Proof.
  split.
  - split.
    + unfold AuthSpec.test02, AuthSpec.readAuthData, readFileSync, JSON_parse,
        expect, console_log, bind, modify, ret, throw.
      destruct (readFile AuthSpec.authFile (fs w)) as [txt |] eqn:Hread;
        [| discriminate].
      destruct (parse txt) as [s |] eqn:Hparse; [| discriminate].
      destruct (cookies s) as [| c cs] eqn:Hc; simpl; [discriminate |].
      intros _. exists txt, s. by rewrite Hc.
    + intros (txt & s & Hread & Hparse & Hc). by apply (test02_run w txt s).
  - unfold AuthSpec.test02, AuthSpec.readAuthData, readFileSync, JSON_parse,
      expect, console_log, bind, modify, ret, throw.
    destruct (readFile AuthSpec.authFile (fs w)) as [txt |]; [| done].
    destruct (parse txt) as [s |]; [| done].
    by destruct (cookies s).
Qed.

(** X13. Whenever test 01 passes, test 02 passes in the world it leaves
    behind: the state that test 01 saved and checked is the one test 02
    finds - whatever the site, the driver and the storage did. *)
Theorem test01_then_test02_passes w :
  (AuthSpec.test01 env w).1 = Return tt ->
  (AuthSpec.test02 (AuthSpec.test01 env w).2).1 = Return tt.
Proof.
  destruct (AuthSpec.test01 env w) as [r w'] eqn:H01. simpl. intros ->.
  unfold AuthSpec.test01 in H01.
  apply bind_Return_inv in H01 as (dirExists & w1 & _ & H01).
  apply bind_Return_inv in H01 as (u2 & w2 & _ & H01).
  apply bind_Return_inv in H01 as (u3 & w3 & _ & H01).
  apply bind_Return_inv in H01 as (u4 & w4 & _ & H01).
  apply bind_Return_inv in H01 as (u5 & w5 & _ & H01).
  apply bind_Return_inv in H01 as (s & w6 & Hsave & H01).
  apply bind_Return_inv in H01 as (saved & w7 & Hexists & H01).
  apply bind_Return_inv in H01 as (u8 & w8 & Hexp & H01).
  apply bind_Return_inv in H01 as (authData & w9 & Hread & H01).
  apply bind_Return_inv in H01 as (u10 & w10 & Hcookies & H01).
  apply storageState_Return_inv in Hsave.
  unfold existsSync, gets in Hexists. inversion Hexists; subst saved w7.
  apply expect_Return_inv in Hexp as [_ ->].
  unfold AuthSpec.readAuthData, readFileSync, JSON_parse, bind, ret in Hread.
  rewrite Hsave, readFile_writeFile in Hread. simpl in Hread.
  rewrite parse_stringify in Hread. inversion Hread; subst authData w9.
  apply expect_Return_inv in Hcookies as [Hlen ->].
  unfold console_log, modify in H01. inversion H01; subst w'.
  apply (test02_run _ (stringify s) s).
  - simpl. rewrite Hsave. apply readFile_writeFile.
  - apply parse_stringify.
  - intros Hnil. rewrite Hnil in Hlen. discriminate.
Qed.

(** X14. With every call resolving, test 01 passes exactly when the click
    on the login button left at least one cookie in the context: a login
    that stores nothing is caught by the check of the saved file. *)
Theorem test01_passes_iff_cookie w :
  (forall c, rejects env c = None) ->
  (AuthSpec.test01 env w).1 = Return tt <->
  cookies (on_click env LoginPage.loginButton (session w)) <> [].
Proof.
  intros Hrej.
  unfold AuthSpec.test01, LoginPage.navigateToLogin, LoginPage.login,
    ProductsPage.waitForProductsToLoad, BasePage.goto, BasePage.fillText,
    BasePage.click, BasePage.waitForElement, AuthSpec.readAuthData,
    readFileSync, JSON_parse, existsSync, mkdirSync, expect, console_log,
    context_storageState, page_goto, page_fill, page_click,
    page_waitForSelector, issue, record, when, bind, gets, modify, ret, throw.
  simpl. rewrite !Hrej.
  destruct (existsPath AuthSpec.authDir (fs w)); simpl;
    repeat (first [ rewrite emit_pages_fs | rewrite emit_pages_session
                  | rewrite emit_pages_clock | rewrite existsPath_writeFile
                  | rewrite readFile_writeFile | rewrite parse_stringify ];
            simpl);
    destruct (cookies (on_click env LoginPage.loginButton (session w)));
    simpl; split; done.
Qed.

End AuthTests.

Lemma test01_then_test02_passes_witness :
  (AuthSpec.test02 (AuthSpec.test01 logs_in fresh_world).2).1 = Return tt.
Proof.
  apply (test01_then_test02_passes logs_in fresh_world).
  vm_compute. reflexivity.
Defined.

Lemma test01_passes_iff_cookie_witness :
  (AuthSpec.test01 logs_in fresh_world).1 = Return tt <->
  cookies (on_click logs_in LoginPage.loginButton (session fresh_world)) <> [].
Proof.
  apply (test01_passes_iff_cookie logs_in fresh_world).
  intros c. reflexivity.
Defined.

(** ** The second page of the multi-page test *)

Section SecondPage.
Context {F : Type}.
Variable env : Env.
Implicit Type w : World F.


End SecondPage.


(** ** The new page that does not come *)

Section NoNewPage.
Context {F : Type}.
Variable env : Env.
Implicit Type w : World F.

(** X16. When the click resolves and opens no page, [clickNewWindowLink]
    returns no page: it raises the timeout of its waiter. The waiter is one
    that was never settled before. *)
Theorem clickNewWindowLink_without_page w :
  settled w !! next_waiter w = None ->
  rejects env (Click InternetPage.newWindowLink) = None ->
  opens env InternetPage.newWindowLink = [] ->
  let r := InternetPage.clickNewWindowLink env w in
  r.1 = Throw (TimeoutError "waitForEvent")
  /\ open_pages r.2 = open_pages w.
Proof.
  intros Hnew Hrej Hopens.
  unfold InternetPage.clickNewWindowLink, context_waitForEvent, page_click,
    await_event, issue, record, bind, modify, throw. simpl.
  rewrite Hrej, Hopens. simpl. by rewrite Hnew.
Qed.

End NoNewPage.

Lemma clickNewWindowLink_without_page_witness :
  let r := InternetPage.clickNewWindowLink quiet fresh_world in
  r.1 = Throw (TimeoutError "waitForEvent")
  /\ open_pages r.2 = open_pages fresh_world.
Proof.
  apply (clickNewWindowLink_without_page quiet fresh_world).
  - vm_compute. reflexivity.
  - reflexivity.
  - reflexivity.
Defined.

(** ** The errors of global set-up *)

Section SetupErrors.
Context {Text F : Type} `{!JSON Text} `{!FileSystem Text F}.
Variable env : Env.
Implicit Type w : World F.

Lemma emit_pages_console ps w :
  console (fold_left (fun w' p => emit_page p w') ps w) = console w.
Proof.
  revert w. induction ps as [| p ps IH]; intros w; simpl; [done |].
  by rewrite IH.
Qed.

Lemma authenticate_result w :
  (GlobalSetup.authenticate env w).1
  = match first_rejection env setup_script with
    | Some e => Throw e
    | None => Return tt
    end
  /\ console (GlobalSetup.authenticate env w).2
     = console w ++ match first_rejection env setup_script with
                    | Some _ => []
                    | None => ["Authentication setup completed";
                               "   Auth state saved to: auth/auth.json"]
                    end.
Proof.
  unfold GlobalSetup.authenticate, page_goto, page_fill, page_click,
    page_waitForSelector, context_storageState, console_log, issue, record,
    bind, modify, ret, throw. simpl.
  destruct (rejects env (Goto "https://www.saucedemo.com/")); simpl;
    [by rewrite app_nil_r |].
  destruct (rejects env (Fill (attr "data-test" "username") "standard_user"));
    simpl; [by rewrite app_nil_r |].
  destruct (rejects env (Fill (attr "data-test" "password") "secret_sauce"));
    simpl; [by rewrite app_nil_r |].
  destruct (rejects env (Click (attr "data-test" "login-button"))); simpl;
    [by rewrite app_nil_r |].
  destruct (rejects env (WaitForSelector ".inventory_container" 10000)); simpl;
    [by rewrite emit_pages_console, app_nil_r |].
  destruct (rejects env (StorageState GlobalSetup.authFile)); simpl;
    [by rewrite emit_pages_console, app_nil_r |].
  by rewrite emit_pages_console, <- app_assoc.
Qed.

Lemma first_rejection_app script1 script2 :
  first_rejection env (script1 ++ script2)
  = match first_rejection env script1 with
    | Some e => Some e
    | None => first_rejection env script2
    end.
Proof.
  induction script1 as [| c script1 IH]; simpl; [reflexivity |].
  by destruct (rejects env c).
Qed.

Lemma browser_close_result b w :
  (browser_close env b w).1
  = match rejects env (CloseBrowser b) with
    | Some e => Throw e
    | None => Return tt
    end.
Proof.
  unfold browser_close, issue, record, bind, modify, throw. simpl.
  by destruct (rejects env (CloseBrowser b)).
Qed.

Lemma browser_close_browsers b w :
  browsers (browser_close env b w).2
  = match rejects env (CloseBrowser b) with
    | Some _ => browsers w
    | None => browsers w ∖ {[b]}
    end.
Proof.
  unfold browser_close, issue, record, bind, modify, throw. simpl.
  by destruct (rejects env (CloseBrowser b)).
Qed.

(** The result of the part of global set-up that follows the check of the
    auth file, in every environment. *)
Lemma launchAndAuthenticate_outcome w :
  (GlobalSetup.launchAndAuthenticate env w).1
  = setup_outcome env (next_browser w).
Proof.
  unfold setup_outcome.
  destruct (first_rejection env (acquisition_script (next_browser w)))
    as [e |] eqn:Hacq.
  - revert Hacq.
    unfold acquisition_script, GlobalSetup.launchAndAuthenticate,
      chromium_launch, browser_createContext, context_newPage, issue, record,
      bind, modify, throw. simpl.
    destruct (rejects env Launch); simpl; [congruence |].
    destruct (rejects env (CreateContext (next_browser w))); simpl;
      [congruence |].
    destruct (rejects env NewPage); simpl; [congruence | discriminate].
  - rewrite (launchAndAuthenticate_acquired env w Hacq).
    rewrite try_finally_result, browser_close_result.
    destruct (rejects env (CloseBrowser (next_browser w))); [reflexivity |].
    destruct (try_catch_authenticate env (acquired w)) as (-> & _).
    by destruct (authenticate_result (acquired w)) as [-> _].
Qed.

(** The browsers that run after that part. *)
Lemma launchAndAuthenticate_running w :
  browsers (GlobalSetup.launchAndAuthenticate env w).2
  = match rejects env Launch with
    | Some _ => browsers w
    | None =>
        match first_rejection env (acquisition_script (next_browser w)),
              rejects env (CloseBrowser (next_browser w)) with
        | None, None => ({[next_browser w]} ∪ browsers w) ∖ {[next_browser w]}
        | _, _ => {[next_browser w]} ∪ browsers w
        end
    end.
Proof.
  destruct (first_rejection env (acquisition_script (next_browser w)))
    as [e |] eqn:Hacq.
  - revert Hacq.
    unfold acquisition_script, GlobalSetup.launchAndAuthenticate,
      chromium_launch, browser_createContext, context_newPage, issue, record,
      bind, modify, throw. simpl.
    destruct (rejects env Launch); simpl; [done |].
    destruct (rejects env (CreateContext (next_browser w))); simpl; [done |].
    destruct (rejects env NewPage); simpl; [done | discriminate].
  - rewrite (launchAndAuthenticate_acquired env w Hacq).
    rewrite try_finally_world, browser_close_browsers.
    destruct (try_catch_authenticate env (acquired w)) as (_ & _ & _ & ->).
    rewrite (authenticate_browsers env (acquired w)).
    revert Hacq. unfold acquisition_script. simpl.
    destruct (rejects env Launch); [discriminate |]. intros _.
    by destruct (rejects env (CloseBrowser (next_browser w))).
Qed.

(** X11. The driver calls of a global set-up that finds no auth file, in
    every environment: the acquisitions up to the first that rejects and,
    only when all three resolved, the calls of the [try] block up to the
    first that rejects, and then [browser.close()]. The browser that set-up
    launched is still running afterwards exactly when the launch resolved
    and either a later acquisition or [browser.close()] itself rejected;
    the other browsers are untouched. *)
Theorem globalSetup_calls_and_running_browser w :
  existsPath GlobalSetup.authFile (fs w) = false ->
  next_browser w ∉ browsers w ->
  let b := next_browser w in
  let r := GlobalSetup.globalSetup env w in
  calls r.2 = calls w ++ setup_trace env b
  /\ (b ∈ browsers r.2 <->
      rejects env Launch = None
      /\ (is_Some (first_rejection env (acquisition_script b))
          \/ is_Some (rejects env (CloseBrowser b))))
  /\ (forall x, x <> b -> (x ∈ browsers r.2 <-> x ∈ browsers w)).
Proof.
  intros Hex Hfresh. cbv zeta.
  split; [by apply globalSetup_absent_calls |].
  rewrite globalSetup_run, Hex, launchAndAuthenticate_running.
  destruct (prepared_driver w) as (_ & -> & -> & _).
  destruct (rejects env Launch) as [e |] eqn:Hl.
  { split.
    - split; [done | intros [Hn _]; discriminate].
    - intros x Hx. reflexivity. }
  destruct (first_rejection env (acquisition_script (next_browser w)))
    as [e |] eqn:Hacq.
  { split.
    - split; [intros _; split; [reflexivity | left; by eexists] |].
      intros _. apply elem_of_union. left. by apply elem_of_singleton.
    - intros x Hx. rewrite elem_of_union, elem_of_singleton. tauto. }
  destruct (rejects env (CloseBrowser (next_browser w))) as [e |] eqn:Hx.
  { split.
    - split; [intros _; split; [reflexivity | right; by eexists] |].
      intros _. apply elem_of_union. left. by apply elem_of_singleton.
    - intros x Hne. rewrite elem_of_union, elem_of_singleton. tauto. }
  split.
  - rewrite elem_of_difference, elem_of_singleton. split; [tauto |].
    intros [_ [[e He] | [e He]]]; discriminate.
  - intros x Hne.
    rewrite elem_of_difference, elem_of_union, !elem_of_singleton. tauto.
Qed.

(** X17. The result of a global set-up that finds no auth file, in every
    environment: it returns exactly when none of its driver calls rejects;
    otherwise it throws the error of the first call that rejected, which
    the [catch] block passes on unchanged - unless [browser.close()] in the
    [finally] block rejects, whose error then takes its place. *)
Theorem globalSetup_throws_first_rejection w :
  existsPath GlobalSetup.authFile (fs w) = false ->
  let b := next_browser w in
  let r := GlobalSetup.globalSetup env w in
  r.1 = setup_outcome env b
  /\ (r.1 = Return tt <->
      first_rejection env
        (acquisition_script b ++ setup_script ++ [CloseBrowser b]) = None).
Proof.
  intros Hex. cbv zeta.
  assert (Hr : (GlobalSetup.globalSetup env w).1
               = setup_outcome env (next_browser w)).
  { rewrite globalSetup_run, Hex, launchAndAuthenticate_outcome.
    by destruct (prepared_driver w) as (_ & _ & -> & _). }
  split; [exact Hr |]. rewrite Hr. unfold setup_outcome.
  rewrite !first_rejection_app.
  destruct (first_rejection env (acquisition_script (next_browser w)));
    [split; discriminate |].
  change (first_rejection env [CloseBrowser (next_browser w)])
    with (match rejects env (CloseBrowser (next_browser w)) with
          | Some e => Some e
          | None => None
          end).
  destruct (rejects env (CloseBrowser (next_browser w)));
    destruct (first_rejection env setup_script); split; done.
Qed.

End SetupErrors.

Lemma globalSetup_calls_and_running_browser_witness :
  let r := GlobalSetup.globalSetup no_createContext fresh_world in
  calls r.2 = calls fresh_world ++ [Launch; CreateContext 0]
  /\ (0%nat ∈ browsers r.2 <->
      rejects no_createContext Launch = None
      /\ (is_Some (first_rejection no_createContext (acquisition_script 0))
          \/ is_Some (rejects no_createContext (CloseBrowser 0))))
  /\ (forall x, x <> 0%nat -> (x ∈ browsers r.2 <-> x ∈ browsers fresh_world)).
Proof.
  apply (globalSetup_calls_and_running_browser no_createContext fresh_world).
  - vm_compute. reflexivity.
  - apply not_elem_of_empty.
Defined.

Lemma globalSetup_throws_first_rejection_witness :
  let r := GlobalSetup.globalSetup no_createContext fresh_world in
  r.1 = Throw (TypeError "browser.createContext is not a function")
  /\ (r.1 = Return tt <->
      first_rejection no_createContext
        (acquisition_script 0 ++ setup_script ++ [CloseBrowser 0]) = None).
Proof.
  apply (globalSetup_throws_first_rejection no_createContext fresh_world).
  vm_compute. reflexivity.
Defined.
